(** * qagmire.data: cached netCDF access to WEAVE FITS tables

    A shallow embedding of [src/qagmire/data.py]: the [ViaNetCDF] cache
    ([single_via_netcdf] and the multi-file wrapper returned by [__call__]),
    the six table readers and [not_line_col], together with the pieces of
    the Python standard library ([str] methods, [posixpath]) and of
    numpy/xarray that the module calls. *)

From Stdlib Require Import ZArith Ascii String List Bool Lia.
From Stdlib Require Import Sorting.Sorted Sorting.Permutation.
From stdpp Require Import base option list gmap strings sorting.

Local Open Scope Z_scope.

(** ** Python [str] methods

    Python strings are [string]; indices are [Z] so that [rfind] can answer
    [-1] as it does in Python. *)
Module Str.

Fixpoint take (n : nat) (s : string) : string :=
  match n, s with
  | S k, String a s' => String a (take k s')
  | _, _ => EmptyString
  end.

Fixpoint drop (n : nat) (s : string) : string :=
  match n, s with
  | S k, String _ s' => drop k s'
  | _, _ => s
  end.

(** [s[:i]] and [s[i:]] for a non-negative index [i]. *)
Definition slice_to (i : Z) (s : string) : string := take (Z.to_nat i) s.
Definition slice_from (i : Z) (s : string) : string := drop (Z.to_nat i) s.

Definition len (s : string) : Z := Z.of_nat (String.length s).

(** [s.startswith(p)] *)
Fixpoint startswith (s p : string) {struct p} : bool :=
  match p with
  | EmptyString => true
  | String a p' =>
      match s with
      | EmptyString => false
      | String b s' => Ascii.eqb a b && startswith s' p'
      end
  end.

(** [s.endswith(p)] *)
Definition endswith (s p : string) : bool :=
  (String.length p <=? String.length s)%nat
  && String.eqb (drop (String.length s - String.length p) s) p.

(** [sub in s] *)
Fixpoint contains (sub s : string) : bool :=
  startswith s sub
  || match s with
     | EmptyString => false
     | String _ s' => contains sub s'
     end.

(** [s.replace(old, new)] for a non-empty [old]: the scan goes left to
    right, and after a match it resumes behind the matched text; [skip]
    counts the characters of a match that are still to be passed over. *)
Fixpoint replace_go (old new : string) (skip : nat) (s : string) : string :=
  match s with
  | EmptyString => EmptyString
  | String a s' =>
      match skip with
      | S k => replace_go old new k s'
      | O =>
          if startswith s old
          then new +:+ replace_go old new (String.length old - 1) s'
          else String a (replace_go old new O s')
      end
  end.

Definition replace (old new s : string) : string := replace_go old new O s.

(** [s.split(sep)] for a one-character separator. *)
Fixpoint split (sep : ascii) (s : string) : list string :=
  match s with
  | EmptyString => [EmptyString]
  | String a s' =>
      if Ascii.eqb a sep then EmptyString :: split sep s'
      else match split sep s' with
           | w :: ws => String a w :: ws
           | [] => [String a EmptyString]
           end
  end.

(** [s.rfind(c)] for a one-character [c]: the highest index, or [-1]. *)
Fixpoint rfind (c : ascii) (s : string) : Z :=
  match s with
  | EmptyString => -1
  | String a s' =>
      let r := rfind c s' in
      if 0 <=? r then r + 1 else if Ascii.eqb a c then 0 else -1
  end.

(** [s.rstrip(c)] for a one-character [c]. *)
Fixpoint rstrip (c : ascii) (s : string) : string :=
  match s with
  | EmptyString => EmptyString
  | String a s' =>
      match rstrip c s' with
      | EmptyString => if Ascii.eqb a c then EmptyString else String a EmptyString
      | r => String a r
      end
  end.

(** [all(ch == c for ch in s)] *)
Fixpoint all_char (c : ascii) (s : string) : bool :=
  match s with
  | EmptyString => true
  | String a s' => Ascii.eqb a c && all_char c s'
  end.

(** Python's [l[-n:]] on a list, for [n > 0]. *)
Definition last_n {A} (n : nat) (l : list A) : list A :=
  list.drop (length l - n) l.

End Str.

(** ** [posixpath] *)
Module Path.

Definition sep : ascii := "/"%char.
Definition extsep : ascii := "."%char.

(** [os.path.join(a, *p)] *)
Definition join_step (path b : string) : string :=
  if Str.startswith b "/" then b
  else if String.eqb path "" || Str.endswith path "/" then path +:+ b
  else path +:+ "/" +:+ b.

Definition join (a : string) (p : list string) : string :=
  fold_left join_step p a.

(** One round of the loop of [os.path.normpath]. *)
Definition norm_step (initial_slashes : nat) (new_comps : list string)
    (comp : string) : list string :=
  if String.eqb comp "" || String.eqb comp "." then new_comps
  else if negb (String.eqb comp "..")
          || (Nat.eqb initial_slashes 0 && bool_decide (new_comps = []))
          || match last new_comps with
             | Some l => String.eqb l ".."
             | None => false
             end
  then new_comps ++ [comp]
  else removelast new_comps.

(** [os.path.normpath(path)] *)
Definition normpath (path : string) : string :=
  if String.eqb path "" then "."
  else
    let initial_slashes :=
      if Str.startswith path "/"
      then if Str.startswith path "//" && negb (Str.startswith path "///")
           then 2%nat else 1%nat
      else 0%nat in
    let comps := Str.split sep path in
    let new_comps := fold_left (norm_step initial_slashes) comps [] in
    let path := String.concat "/" new_comps in
    let path := String.concat "" (repeat "/" initial_slashes) +:+ path in
    if String.eqb path "" then "." else path.

(** [os.path.splitext(p)]: the extension starts at the last dot of the
    last component, unless only dots precede it there. *)
Definition splitext (p : string) : string * string :=
  let sepIndex := Str.rfind sep p in
  let dotIndex := Str.rfind extsep p in
  if sepIndex <? dotIndex then
    if Str.all_char extsep
         (Str.slice_to (dotIndex - (sepIndex + 1)) (Str.slice_from (sepIndex + 1) p))
    then (p, "")
    else (Str.slice_to dotIndex p, Str.slice_from dotIndex p)
  else (p, "").

(** [os.path.basename(p)] *)
Definition basename (p : string) : string :=
  Str.slice_from (Str.rfind sep p + 1) p.

(** [os.path.dirname(p)] *)
Definition dirname (p : string) : string :=
  let head := Str.slice_to (Str.rfind sep p + 1) p in
  if negb (String.eqb head "") && negb (Str.all_char sep head)
  then Str.rstrip sep head else head.

End Path.

(** ** Exceptions, ordered dictionaries *)

Inductive exn : Type :=
  | KeyError (key : string)
  | AssertionError
  | ValueError (msg : string)
  | OSError (msg : string).

Inductive result (A : Type) : Type :=
  | Ok (a : A)
  | Raise (e : exn).
Arguments Ok {A} a.
Arguments Raise {A} e.

Definition rbind {A B} (r : result A) (k : A -> result B) : result B :=
  match r with
  | Ok a => k a
  | Raise e => Raise e
  end.

(** A Python [dict]: keys in insertion order, one entry per key. *)
Module Dict.

Definition t (V : Type) : Type := list (string * V).

Definition keys {V} (d : t V) : list string := map fst d.

Fixpoint get {V} (k : string) (d : t V) : option V :=
  match d with
  | [] => None
  | (k', v) :: d' => if String.eqb k' k then Some v else get k d'
  end.

(** [d[k] = v]: an existing key keeps its place. *)
Fixpoint set {V} (k : string) (v : V) (d : t V) : t V :=
  match d with
  | [] => [(k, v)]
  | (k', v') :: d' =>
      if String.eqb k' k then (k, v) :: d' else (k', v') :: set k v d'
  end.

Fixpoint remove {V} (k : string) (d : t V) : t V :=
  match d with
  | [] => []
  | (k', v') :: d' => if String.eqb k' k then d' else (k', v') :: remove k d'
  end.

(** [d.pop(k)] *)
Definition pop {V} (k : string) (d : t V) : result (V * t V) :=
  match get k d with
  | Some v => Ok (v, remove k d)
  | None => Raise (KeyError k)
  end.

(** [dict(pairs)] *)
Definition of_list {V} (l : list (string * V)) : t V :=
  fold_left (fun d kv => set (fst kv) (snd kv) d) l [].

(** [{k: f(d[k]) for k in d}] *)
Definition map_values {V W} (f : V -> W) (d : t V) : t W :=
  map (fun kv => (fst kv, f (snd kv))) d.

End Dict.

(** ** numpy arrays and astropy columns

    An array is its dtype's byte order, relative to the platform, the
    lengths of its axes after the leading one, and its buffer: one entry
    per index of the leading axis, the trailing axes flattened, every
    element as its bytes in memory order. *)
Module Np.

Inductive byteorder : Type :=
  | Native          (* '=' *)
  | NonNative       (* the order opposite to the platform's *)
  | NotApplicable.  (* '|': one-byte and string dtypes *)

Definition item : Type := list Byte.byte.

Record ndarray : Type := mk_ndarray {
  order : byteorder;
  tail : list nat;
  rows : list (list item)
}.

(** The number of elements of one entry of the leading axis. *)
Definition width (a : ndarray) : nat := fold_right Nat.mul 1%nat (tail a).

(** [a.ndim] and [a.shape] *)
Definition ndim (a : ndarray) : nat := S (length (tail a)).

Definition shape (a : ndarray) : list nat := length (rows a) :: tail a.

(** The bytes of an element in the platform's order: what the element
    means as a number under the dtype's byte order. *)
Definition logical_item (o : byteorder) (x : item) : item :=
  match o with
  | NonNative => rev x
  | _ => x
  end.

Definition logical (a : ndarray) : list (list item) :=
  map (map (logical_item (order a))) (rows a).

(** [a.newbyteorder()]: a view of the same buffer whose dtype has the
    byte order swapped ('S', the default). *)
Definition newbyteorder (a : ndarray) : ndarray :=
  {| order := match order a with
              | Native => NonNative
              | NonNative => Native
              | NotApplicable => NotApplicable
              end;
     tail := tail a;
     rows := rows a |}.

(** [a.byteswap()]: a copy with the bytes of every element reversed, under
    the same dtype. *)
Definition byteswap (a : ndarray) : ndarray :=
  {| order := order a;
     tail := tail a;
     rows := match order a with
             | NotApplicable => rows a
             | _ => map (map (@rev Byte.byte)) (rows a)
             end |}.

(** The array with a new leading axis of length one. *)
Definition expand_axis0 (a : ndarray) : ndarray :=
  {| order := order a;
     tail := length (rows a) :: tail a;
     rows := [concat (rows a)] |}.

(** Arithmetic on elements: the mean of a list of elements, rounding to
    three decimals and [==], all on elements in the platform's order.
    [eqb] need not be reflexive (NaN). *)
Record arith : Type := mk_arith {
  mean : list item -> item;
  round3 : item -> item;
  eqb : item -> item -> bool
}.

(** What a reduction over the leading axis gives: an array of the
    remaining axes, or one element when there was no other axis. *)
Inductive reduced : Type :=
  | Scalar (x : item)
  | Array (a : ndarray).

Definition items (m : reduced) : list item :=
  match m with
  | Scalar x => [x]
  | Array a => concat (logical a)
  end.

(** The elements at position [j] of the entries of the leading axis. *)
Definition column (j : nat) (a : ndarray) : list item :=
  map (fun r => nth j r []) (logical a).

(** [w] consecutive pieces of [k] elements. *)
Definition pieces (w k : nat) (l : list item) : list (list item) :=
  map (fun i => firstn k (skipn (i * k) l)) (seq 0 w).

Section Arith.
Variable ar : arith.

(** [a.mean(axis=0)] *)
Definition mean_axis0 (a : ndarray) : reduced :=
  match tail a with
  | [] => Scalar (mean ar (column 0 a))
  | w :: tl =>
      Array {| order := Native;
               tail := tl;
               rows := pieces w (fold_right Nat.mul 1%nat tl)
                         (map (fun j => mean ar (column j a)) (seq 0 (width a))) |}
  end.

(** [a.round(3)] *)
Definition round (a : ndarray) : ndarray :=
  {| order := Native;
     tail := tail a;
     rows := map (map (round3 ar)) (logical a) |}.

Definition round_reduced (m : reduced) : reduced :=
  match m with
  | Scalar x => Scalar (round3 ar x)
  | Array a => Array (round a)
  end.

(** [(m == a).all()] for [m] of the shape of one entry of [a]. *)
Definition all_equal (m : reduced) (a : ndarray) : bool :=
  forallb (fun row =>
             forallb (fun mx => eqb ar (fst mx) (snd mx))
                     (combine (items m) row))
          (logical a).
End Arith.

End Np.

(** An astropy [Column]: an array with a unit. *)
Record Column : Type := mk_Column {
  arr : Np.ndarray;
  col_unit : option string   (* [col.unit] *)
}.

(** [col.newbyteorder().byteswap()] *)
Definition swap_order (c : Column) : Column :=
  {| arr := Np.byteswap (Np.newbyteorder (arr c)); col_unit := col_unit c |}.

(** [str(col.unit)] *)
Definition str_unit (c : Column) : string :=
  match col_unit c with
  | Some u => u
  | None => "None"
  end.

(** ** xarray

    [DataArray] stands for [xr.Variable]: dimension names, values and
    attributes. *)
Module Xr.

Record DataArray : Type := mk_DataArray {
  dims : list string;
  values : Np.ndarray;
  attrs : list (string * string)
}.

Inductive coord : Type :=
  | CoordArray (a : Np.ndarray)
  | CoordNames (l : list string)
  | CoordScalar (x : Np.item).

(** The coordinate made of the result of a reduction. *)
Definition as_coord (m : Np.reduced) : coord :=
  match m with
  | Np.Scalar x => CoordScalar x
  | Np.Array a => CoordArray a
  end.


Definition coord_shape (c : coord) : list nat :=
  match c with
  | CoordArray a => Np.shape a
  | CoordNames l => [length l]
  | CoordScalar _ => []
  end.

Record Dataset : Type := mk_Dataset {
  data_vars : Dict.t DataArray;
  coords : Dict.t coord
}.

Definition strs_mem (k : string) (l : list string) : bool :=
  existsb (String.eqb k) l.

(** The dimensions of the variables of a dataset with their lengths,
    in the order of the variables. A coordinate given without dimension
    names is along the dimension of its own name when it has one axis,
    and along none when it is a scalar. *)
Definition sizes (data_vars : Dict.t DataArray) (coords : Dict.t coord)
    : list (string * nat) :=
  concat (map (fun kv => combine (dims (snd kv)) (Np.shape (values (snd kv))))
              data_vars)
  ++ concat (map (fun kv => match coord_shape (snd kv) with
                            | [n] => [(fst kv, n)]
                            | _ => []
                            end)
                 coords).

(** The names of the coordinates that are scalars. *)
Definition scalar_vars (coords : Dict.t coord) : list string :=
  Dict.keys (List.filter (fun kv => Nat.eqb (length (coord_shape (snd kv))) 0) coords).

(** xarray's [calculate_dimensions]: one length for every dimension. *)
Fixpoint calculate_dimensions (scalars : list string) (seen : Dict.t nat)
    (l : list (string * nat)) : result (Dict.t nat) :=
  match l with
  | [] => Ok seen
  | (dim, size) :: l' =>
      if strs_mem dim scalars then
        Raise (ValueError "dimension already exists as a scalar variable")
      else
        match Dict.get dim seen with
        | None => calculate_dimensions scalars (Dict.set dim size seen) l'
        | Some n =>
            if Nat.eqb n size then calculate_dimensions scalars seen l'
            else Raise (ValueError "conflicting sizes for dimension")
        end
  end.

(** [xr.Dataset(data_vars, coords)], the variables being [xr.Variable]s
    and the coordinates arrays, lists or scalars without dimension names.
    It refuses, with a [ValueError]: a name that is a variable and a
    coordinate; a coordinate of more than one axis, which would need
    dimension names; a dimension that is also a scalar coordinate; and
    two lengths for one dimension. A variable of several axes that bears
    the name of one of its dimensions is accepted, as xarray does since
    2023.08. *)
Definition Dataset_init (data_vars : Dict.t DataArray) (coords : Dict.t coord)
    : result Dataset :=
  if existsb (fun k => strs_mem k (Dict.keys coords)) (Dict.keys data_vars) then
    Raise (ValueError "variables found in both data_vars and coords")
  else if existsb (fun kv => Nat.ltb 1 (length (coord_shape (snd kv)))) coords then
    Raise (ValueError "cannot set variable without explicit dimension names")
  else
    rbind (calculate_dimensions (scalar_vars coords) [] (sizes data_vars coords))
          (fun _ => Ok {| data_vars := data_vars; coords := coords |}).

(** The dimension names of a dataset. *)
Definition dim_names (ds : Dataset) : list string :=
  concat (map (fun kv => dims (snd kv)) (data_vars ds)) ++ Dict.keys (coords ds).

(** [ds.expand_dims({dim: [label]})]: every data variable gets [dim] as
    its new first dimension, the coordinates stay as they are and [dim]
    becomes a coordinate with the one label. *)
Definition expand_dims (dim label : string) (ds : Dataset) : result Dataset :=
  if strs_mem dim (dim_names ds) then
    Raise (ValueError "Dimension already exists")
  else if strs_mem dim (Dict.keys (data_vars ds)) then
    Raise (ValueError "Name already exists as coordinate or variable name")
  else
    Ok {| data_vars :=
            Dict.map_values
              (fun v => {| dims := dim :: dims v;
                           values := Np.expand_axis0 (values v);
                           attrs := attrs v |})
              (data_vars ds);
          coords := Dict.set dim (CoordNames [label]) (coords ds) |}.

End Xr.

(** ** The cache: [ViaNetCDF]

    The file system is a map from path strings to nodes, each string
    taken as it is written: the map is a file system (one string, one
    file) for paths that are absolute and normalised, see [canonical],
    and without symbolic links. A file made by [to_netcdf] holds the
    dataset once the write has completed; until then, and for good when
    the write fails on the way, it exists at its path without its
    contents. [capacity] is the number of datasets that still fit on the
    device. Every action is recorded in [log]. *)
Module Cache.

Inductive node : Type :=
  | Dir
  | File (content : option Xr.Dataset).

Inductive event : Type :=
  | EvRead (fn : string)        (* the read function is called on [fn] *)
  | EvMkdir (d : string)        (* [os.mkdir] *)
  | EvCreate (p : string)       (* the writer creates the file at [p] *)
  | EvStore (p : string)        (* the writer has written all of it *)
  | EvOpen (ps : list string).  (* [xr.open_mfdataset] *)

Record world : Type := mk_world {
  fs : gmap string node;
  capacity : nat;
  log : list event
}.



Definition M (A : Type) : Type := world -> result A * world.

Definition ret {A} (a : A) : M A := fun w => (Ok a, w).

Definition raise {A} (e : exn) : M A := fun w => (Raise e, w).

Definition bind {A B} (m : M A) (k : A -> M B) : M B :=
  fun w =>
    match m w with
    | (Ok a, w') => k a w'
    | (Raise e, w') => (Raise e, w')
    end.

Definition lift {A} (r : result A) : M A := fun w => (r, w).

Definition logged (e : event) (w : world) : world :=
  {| fs := fs w; capacity := capacity w; log := log w ++ [e] |}.

Definition emit (e : event) : M unit := fun w => (Ok tt, logged e w).

Definition put (p : string) (n : node) : M unit :=
  fun w => (Ok tt, {| fs := <[p := n]> (fs w); capacity := capacity w; log := log w |}).

Notation "'do' x <- m ; k" := (bind m (fun x => k))
  (at level 10, x name, m at level 100, k at level 200).
Notation "'do_' m ; k" := (bind m (fun _ => k))
  (at level 10, m at level 100, k at level 200).

(** [[f(x) for x in l]] *)
Fixpoint mapM {A B} (f : A -> M B) (l : list A) : M (list B) :=
  match l with
  | [] => ret []
  | x :: l' => do y <- f x; do ys <- mapM f l'; ret (y :: ys)
  end.

(** [os.path.exists(p)] *)
Definition exists_ (p : string) : M bool :=
  fun w => (Ok (bool_decide (is_Some (fs w !! p))), w).

(** The directories [os.makedirs(d)] walks through, outermost first. *)
Fixpoint scan_prefixes (acc : string) (comps : list string) : list string :=
  match comps with
  | [] => []
  | c :: cs => (acc +:+ c) :: scan_prefixes (acc +:+ c +:+ "/") cs
  end.

Definition ancestors (d : string) : list string :=
  List.filter (fun p => negb (String.eqb p "") && negb (Str.endswith p "/"))
              (scan_prefixes "" (Str.split Path.sep d)).

Fixpoint mkdirs (ps : list string) : M unit :=
  match ps with
  | [] => ret tt
  | p :: ps' =>
      fun w =>
        match fs w !! p with
        | Some Dir => mkdirs ps' w
        | Some (File _) => (Raise (OSError "File exists"), w)
        | None => (do_ put p Dir; do_ emit (EvMkdir p); mkdirs ps') w
        end
  end.

(** [os.makedirs(d, exist_ok=True)] *)
Definition makedirs (d : string) : M unit :=
  if String.eqb d "" then raise (OSError "No such file or directory")
  else mkdirs (ancestors d).

(** [ds.to_netcdf(p)]: the file is created at [p] itself and then
    filled. *)
Definition to_netcdf (ds : Xr.Dataset) (p : string) : M unit :=
  fun w =>
    match fs w !! p with
    | Some Dir => (Raise (OSError "Is a directory"), w)
    | _ =>
        (do_ put p (File None);
         do_ emit (EvCreate p);
         fun w1 =>
           match capacity w1 with
           | O => (Raise (OSError "No space left on device"), w1)
           | S c =>
               (Ok tt, {| fs := <[p := File (Some ds)]> (fs w1);
                          capacity := c;
                          log := log w1 ++ [EvStore p] |})
           end) w
    end.

(** [xr.open_mfdataset(paths)]: without paths it raises; otherwise it
    opens every file. The result stands for the dataset that xarray
    combines of the opened ones: it is given as the list of those, in
    the order of the paths; how they are combined is left out. *)
Definition open_mfdataset (paths : list string) : M (list Xr.Dataset) :=
  do_ emit (EvOpen paths);
  match paths with
  | [] => raise (OSError "no files to open")
  | _ =>
      mapM (fun p w =>
              match fs w !! p with
              | Some (File (Some ds)) => (Ok ds, w)
              | _ => (Raise (OSError "cannot open"), w)
              end) paths
  end.

(** A read function: its [__name__] and what it does on a file name. *)
Record read_function : Type := mk_read_function {
  __name__ : string;
  call : string -> result Xr.Dataset
}.

Definition call_reader (r : read_function) (fn : string) : M Xr.Dataset :=
  do_ emit (EvRead fn); lift (call r fn).

(** The name of the netCDF file in [single_via_netcdf]. *)
Definition fn_netcdf (netcdf_store : string) (name fn : string) : string :=
  let fn_netcdf :=
    Path.join netcdf_store
              (Str.last_n 3 (Str.split Path.sep (Path.normpath fn))) in
  let table := Str.replace "read_" "" name in
  let fn_netcdf := fst (Path.splitext fn_netcdf) in
  fn_netcdf +:+ "_" +:+ table +:+ ".nc".

Section ViaNetCDF.
Variable netcdf_store : string.

Definition single_via_netcdf (r : read_function) (fn : string) : M string :=
  let fn_netcdf := fn_netcdf netcdf_store (__name__ r) fn in
  do present <- exists_ fn_netcdf;
  if negb present then
    do ds <- call_reader r fn;
    let fn_base := fst (Path.splitext (Path.basename fn)) in
    do ds <- lift (Xr.expand_dims "filename" fn_base ds);
    do_ makedirs (Path.dirname fn_netcdf);
    do_ to_netcdf ds fn_netcdf;
    ret fn_netcdf
  else ret fn_netcdf.

(** The function returned by [__call__]. *)
Definition netcdf_wrapper (r : read_function) (fns : list string)
    : M (list Xr.Dataset) :=
  do fns_netcdf <- mapM (single_via_netcdf r) fns;
  open_mfdataset fns_netcdf.
End ViaNetCDF.

End Cache.

(** ** The table readers

    A FITS table is its columns in order; [Table_read fn ext] stands for
    [Table.read(fn, ext)]. The functions below are the read functions as
    they are written, before the decorator wraps them. *)
Definition table : Type := list (string * Column).

(** The columns that do not contain line measurements. *)
Definition not_line_col (c : string) : bool :=
  let c := Str.replace "ERR_" "" c in
  forallb (fun n => negb (Str.startswith c (n +:+ "_")))
          ["EBMV"; "FLUX"; "AMPL"; "Z"; "SIGMA"; "AON"; "FWHM"].

(** [xr.Variable(dims, col, attrs={"unit": str(col.unit)})]: a
    [ValueError] unless there is one name for every axis of the column. *)
Definition variable_of (dims : list string) (c : Column) : Xr.DataArray :=
  {| Xr.dims := dims; Xr.values := arr c; Xr.attrs := [("unit", str_unit c)] |}.

Definition variable (dims : list string) (c : Column) : result Xr.DataArray :=
  if Nat.eqb (length dims) (Np.ndim (arr c)) then Ok (variable_of dims c)
  else Raise (ValueError "dimensions must have the same length as the number of data dimensions").

(** [for c in cols: cols[c] = xr.Variable(dimsf(c), cols[c], ...)] *)
Fixpoint variables (dimsf : string -> list string) (cols : Dict.t Column)
    : result (Dict.t Xr.DataArray) :=
  match cols with
  | [] => Ok []
  | (c, col) :: cols' =>
      rbind (variable (dimsf c) col) (fun v =>
        rbind (variables dimsf cols') (fun vs => Ok ((c, v) :: vs)))
  end.

(** The first four statements of every reader. *)
Definition columns (dat : table) : result (Dict.t Column * Dict.t Xr.coord) :=
  let cols := Dict.of_list dat in
  let cols := Dict.map_values swap_order cols in
  rbind (Dict.pop "APS_ID" cols) (fun ac =>
    Ok (snd ac, [("APS_ID", Xr.CoordArray (arr (fst ac)))])).

Section Readers.
Variable ar : Np.arith.
Variable Table_read : string -> string -> result table.

(** The mean over the rows, rounded, when every row rounds to it. *)
Definition shared_axis (all : Column) : result Np.reduced :=
  let m := Np.round_reduced ar (Np.mean_axis0 ar (arr all)) in
  if Np.all_equal ar m (Np.round ar (arr all)) then Ok m
  else Raise AssertionError.

Definition is_czz (c : string) : bool :=
  Str.startswith c "CZZ" && negb (Str.contains "CHI2" c).

Definition class_table_promote
    (st : result (Dict.t Column * Dict.t Xr.coord)) (c : string)
    : result (Dict.t Column * Dict.t Xr.coord) :=
  rbind st (fun cc =>
    if is_czz c then
      rbind (Dict.pop c (fst cc)) (fun ac =>
        rbind (shared_axis (fst ac)) (fun czz =>
          Ok (snd ac, Dict.set c (Xr.as_coord czz) (snd cc))))
    else Ok cc).

Definition class_table_dims (c : string) : list string :=
  ["APS_ID"] ++
  (if Str.startswith c "CZZ" then [Str.replace "_CHI2" "" c]
   else if String.eqb c "COEFF" then ["I_COEFF"]
   else []).

Definition class_table (dat : table) : result Xr.Dataset :=
  rbind (columns dat) (fun cc =>
    rbind (fold_left class_table_promote (Dict.keys (fst cc)) (Ok cc)) (fun cc =>
      rbind (variables class_table_dims (fst cc)) (fun cols =>
        Xr.Dataset_init cols (snd cc)))).

Definition read_class_table (fn : string) : result Xr.Dataset :=
  rbind (Table_read fn "CLASS_TABLE") class_table.

Definition star_table_dims (c : string) : list string :=
  ["APS_ID"] ++
  (if String.eqb c "COVAR" then ["I_COVAR"; "J_COVAR"]
   else if Str.contains "ELEM" c then ["I_ELEM"]
   else []).

Definition star_table (dat : table) : result Xr.Dataset :=
  rbind (columns dat) (fun cc =>
    let names := Xr.CoordNames ["TEFF"; "LOGG"; "FEH"; "ALPHA"; "MICRO"] in
    let coords := Dict.set "J_COVAR" names (Dict.set "I_COVAR" names (snd cc)) in
    rbind (variables star_table_dims (fst cc)) (fun cols =>
      Xr.Dataset_init cols coords)).

Definition read_star_table (fn : string) : result Xr.Dataset :=
  rbind (Table_read fn "STAR_TABLE") star_table.

Definition galaxy_table_dims (c : string) : list string :=
  ["APS_ID"] ++ (if Str.contains "EBMV" c then ["I_EBMV"] else []).

Definition galaxy_table_name (i : nat) (c : string) : string :=
  if (100 <? i)%nat && not_line_col c then "IDX_" +:+ c else c.

Definition galaxy_table_step (st : result (Dict.t Xr.DataArray))
    (ic : nat * (string * Column)) : result (Dict.t Xr.DataArray) :=
  rbind st (fun out_cols =>
    let i := fst ic in
    let c := fst (snd ic) in
    rbind (variable (galaxy_table_dims c) (snd (snd ic))) (fun v =>
      Ok (Dict.set (galaxy_table_name i c) v out_cols))).

Definition galaxy_table (dat : table) : result Xr.Dataset :=
  rbind (columns dat) (fun cc =>
    rbind (fold_left galaxy_table_step
                     (combine (seq 0 (length (fst cc))) (fst cc)) (Ok []))
          (fun out_cols => Xr.Dataset_init out_cols (snd cc))).

Definition read_galaxy_table (fn : string) : result Xr.Dataset :=
  rbind (Table_read fn "GALAXY_TABLE") galaxy_table.

(** [c.split("_")[-1]] *)
Definition band_of (c : string) : string :=
  List.last (Str.split "_" c) "".

Definition class_spec_promote
    (st : result (Dict.t Column * Dict.t Xr.coord)) (c : string)
    : result (Dict.t Column * Dict.t Xr.coord) :=
  rbind st (fun cc =>
    if Str.startswith c "LAMBDA" then
      let band := band_of c in
      rbind (Dict.pop c (fst cc)) (fun ac =>
        rbind (shared_axis (fst ac)) (fun wl =>
          Ok (snd ac, Dict.set ("LAMBDA_" +:+ band) (Xr.as_coord wl) (snd cc))))
    else Ok cc).

Definition class_spec_dims (c : string) : list string :=
  ["APS_ID"] ++
  (if Str.endswith c "_B" then ["LAMBDA_B"]
   else if Str.endswith c "_R" then ["LAMBDA_R"]
   else []).

Definition class_spec (dat : table) : result Xr.Dataset :=
  rbind (columns dat) (fun cc =>
    rbind (fold_left class_spec_promote (Dict.keys (fst cc)) (Ok cc)) (fun cc =>
      rbind (variables class_spec_dims (fst cc)) (fun cols =>
        Xr.Dataset_init cols (snd cc)))).

Definition read_class_spec (fn : string) : result Xr.Dataset :=
  rbind (Table_read fn "CLASS_SPEC") class_spec.

Definition star_spec_dims (c : string) : list string :=
  ["APS_ID"] ++
  (if Str.endswith c "_B" then ["LAMBIN_B"]
   else if Str.endswith c "_R" then ["LAMBIN_R"]
   else if Str.endswith c "_C" then ["LAMBIN_C"]
   else []).

Definition star_spec (dat : table) : result Xr.Dataset :=
  rbind (columns dat) (fun cc =>
    rbind (variables star_spec_dims (fst cc)) (fun cols =>
      Xr.Dataset_init cols (snd cc))).

Definition read_star_spec (fn : string) : result Xr.Dataset :=
  rbind (Table_read fn "STAR_SPEC") star_spec.

Definition galaxy_spec_dims (c : string) : list string :=
  ["APS_ID"] ++
  (if Str.endswith c "_PPXF" || Str.endswith c "_GAND" then ["LOGLAMBIN"]
   else []).

Definition galaxy_spec (dat : table) : result Xr.Dataset :=
  rbind (columns dat) (fun cc =>
    rbind (variables galaxy_spec_dims (fst cc)) (fun cols =>
      Xr.Dataset_init cols (snd cc))).

Definition read_galaxy_spec (fn : string) : result Xr.Dataset :=
  rbind (Table_read fn "GALAXY_SPEC") galaxy_spec.

(** The common shape of the two promotion loops: the columns selected
    by [sel] go from the columns to the coordinates, under the name
    [cname] gives them. *)
Definition promote_step (sel : string -> bool) (cname : string -> string)
    (st : result (Dict.t Column * Dict.t Xr.coord)) (c : string)
    : result (Dict.t Column * Dict.t Xr.coord) :=
  rbind st (fun cc =>
    if sel c then
      rbind (Dict.pop c (fst cc)) (fun ac =>
        rbind (shared_axis (fst ac)) (fun m =>
          Ok (snd ac, Dict.set (cname c) (Xr.as_coord m) (snd cc))))
    else Ok cc).

(** The common shape of [class_table] and [class_spec]: the promotion
    loop, then one data variable for every column that is left. *)
Definition promoting_reader (sel : string -> bool) (cname : string -> string)
    (dimsf : string -> list string) (dat : table) : result Xr.Dataset :=
  rbind (columns dat) (fun cc =>
    rbind (fold_left (promote_step sel cname) (Dict.keys (fst cc)) (Ok cc)) (fun cc =>
      rbind (variables dimsf (fst cc)) (fun cols =>
        Xr.Dataset_init cols (snd cc)))).

(** The common shape of the readers without a promotion loop: what is
    done to the coordinates, then one data variable for every column. *)
Definition plain_reader (coordsf : Dict.t Xr.coord -> Dict.t Xr.coord)
    (dimsf : string -> list string) (dat : table) : result Xr.Dataset :=
  rbind (columns dat) (fun cc =>
    rbind (variables dimsf (fst cc)) (fun cols =>
      Xr.Dataset_init cols (coordsf (snd cc)))).

(** The six read functions with their names. *)
Definition readers : list (string * (string -> result Xr.Dataset)) :=
  [("read_class_table", read_class_table);
   ("read_star_table", read_star_table);
   ("read_galaxy_table", read_galaxy_table);
   ("read_class_spec", read_class_spec);
   ("read_star_spec", read_star_spec);
   ("read_galaxy_spec", read_galaxy_spec)].

End Readers.

(** The coordinates that [star_table] adds. *)
Definition covar_coords (coords : Dict.t Xr.coord) : Dict.t Xr.coord :=
  let names := Xr.CoordNames ["TEFF"; "LOGG"; "FEH"; "ALPHA"; "MICRO"] in
  Dict.set "J_COVAR" names (Dict.set "I_COVAR" names coords).

(** A data variable whose first dimension is [dim]. *)
Definition leads_with (dim : string) (kv : string * Xr.DataArray) : Prop :=
  head (Xr.dims (snd kv)) = Some dim.

(** A data variable with one dimension name for every axis of its
    values. *)
Definition axes_match (kv : string * Xr.DataArray) : Prop :=
  length (Xr.dims (snd kv)) = Np.ndim (Xr.values (snd kv)).




(** ** Tables and readers for the examples *)
Module Demo.

(** Two-byte integers, stored big-endian on a little-endian platform, as
    FITS has them. *)
Definition ids : Column :=
  {| arr := Np.mk_ndarray Np.NonNative []
              [[[Byte.x00; Byte.x01]]; [[Byte.x00; Byte.x02]]];
     col_unit := None |}.

Definition flux : Column :=
  {| arr := Np.mk_ndarray Np.NonNative [2%nat]
              [[[Byte.x01; Byte.x2c]; [Byte.x00; Byte.x07]];
               [[Byte.x01; Byte.x2d]; [Byte.x00; Byte.x09]]];
     col_unit := Some "count" |}.

Definition stack : table := [("APS_ID", ids); ("FLUX_B", flux)].

(** The same table with its columns already in the platform's order. *)
Definition native_stack : table :=
  [("APS_ID",
    {| arr := Np.mk_ndarray Np.Native []
                [[[Byte.x01; Byte.x00]]; [[Byte.x02; Byte.x00]]];
       col_unit := None |});
   ("FLUX_B",
    {| arr := Np.mk_ndarray Np.Native [2%nat]
                [[[Byte.x2c; Byte.x01]; [Byte.x07; Byte.x00]];
                 [[Byte.x2d; Byte.x01]; [Byte.x09; Byte.x00]]];
       col_unit := Some "count" |})].

(** A class table: the redshift grid [CZZ_GALAXY] is the same in both
    rows, [CZZ_QSO] is not; [chi2] has one value for every point of the
    grid. *)
Definition grid (a b : Byte.byte) : Column :=
  {| arr := Np.mk_ndarray Np.NonNative [3%nat]
              [[[Byte.x00; Byte.x00]; [Byte.x00; Byte.x0a]; [Byte.x00; Byte.x14]];
               [[Byte.x00; a]; [Byte.x00; b]; [Byte.x00; Byte.x14]]];
     col_unit := None |}.

Definition chi2 : Column :=
  {| arr := Np.mk_ndarray Np.NonNative [3%nat]
              [[[Byte.x00; Byte.x05]; [Byte.x00; Byte.x03]; [Byte.x00; Byte.x08]];
               [[Byte.x00; Byte.x09]; [Byte.x00; Byte.x04]; [Byte.x00; Byte.x02]]];
     col_unit := None |}.

Definition class_rows : table :=
  [("APS_ID", ids); ("CZZ_GALAXY", grid Byte.x00 Byte.x0a);
   ("CZZ_CHI2_GALAXY", chi2)].


(** Spectra on one wavelength grid, three points wide. *)
Definition spec_rows : table :=
  [("APS_ID", ids); ("LAMBDA_B", grid Byte.x00 Byte.x0a); ("FLUX_B", chi2)].


(** An arithmetic for the examples: the elements are unsigned integers,
    least significant byte first; the mean is the integer quotient and
    rounding changes nothing. *)
Definition value (x : Np.item) : Z :=
  fold_right (fun b acc => Z.of_N (Byte.to_N b) + 256 * acc) 0 x.

Definition encode (z : Z) : Np.item :=
  map (fun i => default Byte.x00
                  (Byte.of_N (Z.to_N ((z / 256 ^ Z.of_nat i) mod 256))))
      (seq 0 8).

Definition arith : Np.arith :=
  {| Np.mean := fun l =>
       encode (fold_right Z.add 0 (map value l) / Z.of_nat (length l));
     Np.round3 := fun x => encode (value x);
     Np.eqb := fun x y => value x =? value y |}.

(** Every file holds [stack], except the files named "missing". *)
Definition Table_read (fn ext : string) : result table :=
  if Str.contains "missing" fn then Raise (OSError "No such file or directory")
  else Ok stack.

Definition reader : Cache.read_function :=
  {| Cache.__name__ := "read_star_spec";
     Cache.call := read_star_spec Table_read |}.

(** An empty file system with room for [n] datasets. *)
Definition disk (n : nat) : Cache.world :=
  {| Cache.fs := ∅; Cache.capacity := n; Cache.log := [] |}.

End Demo.

(** ** The canonical cache path as the documentation words it

    [<cache_root>/<last 3 path segments of source file, with original
    separators>/<source-file-basename-without-extension>_<table-name>.nc],
    the table name being the reader's name with the "read_" prefix
    stripped. *)
Definition strip_prefix (p s : string) : string :=
  if Str.startswith s p then Str.drop (String.length p) s else s.

Definition documented_cache_path (cache_root name fn : string) : string :=
  cache_root +:+ "/"
  +:+ String.concat "/" (Str.last_n 3 (Str.split Path.sep fn)) +:+ "/"
  +:+ fst (Path.splitext (Path.basename fn)) +:+ "_"
  +:+ strip_prefix "read_" name +:+ ".nc".

(** ** [ViaNetCDF.__init__]: the folder of the cache

    [environ] is [os.environ]. Without a given folder the default is
    computed first, from "HOME": [os.path.join(None, "netcdf_store")]
    is a [TypeError], whatever "NETCDF_STORE" holds. *)
Inductive init_outcome : Type :=
  | Store (netcdf_store : string)
  | TypeError.

Definition init (netcdf_store : option string) (environ : gmap string string)
    : init_outcome :=
  match netcdf_store with
  | Some s => Store s
  | None =>
      match environ !! "HOME" with
      | None => TypeError
      | Some home =>
          let dflt := Path.join home ["netcdf_store"] in
          Store (from_option (fun s => s) dflt (environ !! "NETCDF_STORE"))
      end
  end.

(** ** File discovery: [get_weave_files]

    [glob] and [fits.getheader] are the environment's; a header is the
    dictionary of its string cards. *)
Section Discovery.
Variable glob : string -> list string.
Variable getheader : string -> result (Dict.t string).
Variable environ : gmap string string.

Definition _is_lowres (fn : string) : result bool :=
  rbind (getheader fn) (fun header =>
    match Dict.get "RES-OBS" header with
    | Some res => Ok (Str.contains "LR" res)
    | None => Raise (KeyError "RES-OBS")
    end).

(** [[fn for fn in files if keep(fn)]], with a test that can raise. *)
Fixpoint select (keep : string -> result bool) (files : list string)
    : result (list string) :=
  match files with
  | [] => Ok []
  | fn :: files' =>
      rbind (keep fn) (fun b =>
        rbind (select keep files') (fun rest =>
          Ok (if b then fn :: rest else rest)))
  end.

(** The pattern handed to [glob]. *)
Definition weave_pattern (root level filetype date runid : string) : string :=
  let pattern :=
    level +:+ "/" +:+ date +:+ "/" +:+ filetype +:+ "_*" +:+ runid +:+ "*.fits" in
  Path.join root [pattern].

Definition get_weave_files (level filetype date runid : string) (lowres : bool)
    : result (list string) :=
  match environ !! "WEAVEIO_ROOTDIR" with
  | None => Raise (KeyError "WEAVEIO_ROOTDIR")
  | Some root =>
      let files := glob (weave_pattern root level filetype date runid) in
      let files := merge_sort String.le files in
      if lowres then select _is_lowres files
      else select (fun fn => rbind (_is_lowres fn) (fun b => Ok (negb b))) files
  end.

Definition get_lr_l2_stack_files (date runid : string) : result (list string) :=
  get_weave_files "L2" "stack" date runid true.

End Discovery.

(** Whether [select] keeps a file. *)
Definition kept (keep : string -> result bool) (fn : string) : bool :=
  match keep fn with
  | Ok true => true
  | _ => false
  end.

(** The coordinate "APS_ID" holds the byte-swapped "APS_ID" column of the
    table. *)
Definition row_axis (dat : table) (coords : Dict.t Xr.coord) : Prop :=
  exists aps,
    Dict.get "APS_ID" (Dict.of_list dat) = Some aps
    /\ Dict.get "APS_ID" coords = Some (Xr.CoordArray (arr (swap_order aps))).

(** A data variable made of a column of the table: its values are the
    byte-swapped column, which mean what the column means, its only
    attribute is the unit, and its name is the column's or, where [idx]
    allows it and the column is not a line column, that with "IDX_"
    before it. *)
Definition from_column (idx : bool) (dat : table) (kv : string * Xr.DataArray) : Prop :=
  exists c col,
    Dict.get c (Dict.of_list dat) = Some col
    /\ c <> "APS_ID"
    /\ (fst kv = c
        \/ (idx = true /\ not_line_col c = true /\ fst kv = "IDX_" +:+ c))
    /\ Xr.values (snd kv) = arr (swap_order col)
    /\ Np.logical (Xr.values (snd kv)) = Np.logical (arr col)
    /\ Xr.attrs (snd kv) = [("unit", str_unit col)].

(** The read function [f] has returned [ds] for the file [fn], whose
    extension [ext] holds the table [dat]. *)
Definition read_as (Table_read : string -> string -> result table) (ext : string)
    (f : string -> result Xr.Dataset) (fn : string) (dat : table) (ds : Xr.Dataset)
    : Prop :=
  Table_read fn ext = Ok dat /\ f fn = Ok ds.

(** The read function [f] cannot do without the table of the extension
    [ext] and its "APS_ID": without the column it raises [KeyError], and
    an error of [Table.read] is its own. *)
Definition needs_APS_ID (Table_read : string -> string -> result table) (ext : string)
    (f : string -> result Xr.Dataset) (fn : string) : Prop :=
  (forall dat, Table_read fn ext = Ok dat ->
               Dict.get "APS_ID" (Dict.of_list dat) = None ->
               f fn = Raise (KeyError "APS_ID"))
  /\ (forall e, Table_read fn ext = Raise e -> f fn = Raise e).

(** Examples for the discovery. *)
Module DemoFiles.

Definition glob (pattern : string) : list string :=
  if String.eqb pattern "/weave/L2/*/stack_***.fits"
  then ["/weave/L2/20230102/stack_3.fits"; "/weave/L2/20230101/stack_2.fits";
        "/weave/L2/20230101/stack_1.fits"]
  else [].

Definition getheader (fn : string) : result (Dict.t string) :=
  if Str.endswith fn "_2.fits" then Ok [("RES-OBS", "HR")]
  else Ok [("RES-OBS", "LR")].

Definition environ : gmap string string :=
  {[ "WEAVEIO_ROOTDIR" := "/weave"; "HOME" := "/home/user" ]}.

(** Every file holds the class table [Demo.class_rows]. *)
Definition class_read (fn ext : string) : result table := Ok Demo.class_rows.

(** Every file holds the spectra [Demo.spec_rows]. *)
Definition spec_read (fn ext : string) : result table := Ok Demo.spec_rows.

(** Every file holds a table without "APS_ID". *)
Definition no_key_read (fn ext : string) : result table := Ok [("FLUX_B", Demo.flux)].

End DemoFiles.

(** The character [c] does not occur in [s]. *)
Abbreviation free c s := (Str.contains (String c "") s = false).

(** * Facts about strings and paths *)
Module StrFacts.

Lemma app_cons (a : ascii) (s t : string) : String a s +:+ t = String a (s +:+ t).
Proof. reflexivity. Qed.

Lemma app_nil_l (s : string) : "" +:+ s = s.
Proof. reflexivity. Qed.

Lemma app_nil_r (s : string) : s +:+ "" = s.
Proof. induction s as [|a s IH]; [reflexivity | now rewrite app_cons, IH]. Qed.

Lemma app_assoc (a b c : string) : (a +:+ b) +:+ c = a +:+ (b +:+ c).
Proof. induction a as [|x a IH]; [reflexivity | now rewrite !app_cons, IH]. Qed.

Lemma length_app (a b : string) :
  String.length (a +:+ b) = (String.length a + String.length b)%nat.
Proof.
  induction a as [|x a IH]; [reflexivity|].
  rewrite app_cons. simpl. now rewrite IH.
Qed.

Lemma app_inv_head (a x y : string) : a +:+ x = a +:+ y -> x = y.
Proof.
  induction a as [|c a IH]; [trivial|].
  rewrite !app_cons. intros H. injection H. exact IH.
Qed.

Lemma app_eq_length (a b x y : string) :
  String.length a = String.length b -> a +:+ x = b +:+ y -> a = b /\ x = y.
Proof.
  revert b. induction a as [|c a IH]; intros [|d b] Hl H;
    try discriminate; [now split|].
  rewrite !app_cons in H. injection H as -> H. injection Hl as Hl.
  destruct (IH b Hl H) as [-> ->]. now split.
Qed.

Lemma app_inv_tail (a x y : string) : x +:+ a = y +:+ a -> x = y.
Proof.
  intros H. apply (app_eq_length x y a a); [|exact H].
  apply (f_equal String.length) in H. rewrite !length_app in H. lia.
Qed.

Lemma take_app (a b : string) (n : nat) :
  Str.take (String.length a + n) (a +:+ b) = a +:+ Str.take n b.
Proof.
  induction a as [|x a IH]; [reflexivity|].
  rewrite app_cons. simpl. now rewrite IH.
Qed.

Lemma drop_app (a b : string) (n : nat) :
  Str.drop (String.length a + n) (a +:+ b) = Str.drop n b.
Proof.
  induction a as [|x a IH]; [reflexivity|].
  rewrite app_cons. simpl. exact IH.
Qed.

Lemma take_0 (s : string) : Str.take 0 s = "".
Proof. now destruct s. Qed.

Lemma drop_0 (s : string) : Str.drop 0 s = s.
Proof. now destruct s. Qed.

Lemma free_cons (c a : ascii) (s : string) :
  free c (String a s) <-> Ascii.eqb c a = false /\ free c s.
Proof.
  simpl. replace (Str.startswith s "") with true by now destruct s.
  rewrite orb_false_iff, andb_true_r. reflexivity.
Qed.

Lemma free_empty (c : ascii) : free c "".
Proof. reflexivity. Qed.

Lemma free_app (c : ascii) (a b : string) :
  free c (a +:+ b) <-> free c a /\ free c b.
Proof.
  induction a as [|x a IH].
  - simpl. split; [intros H; split; [reflexivity | exact H] | intros [_ H]; exact H].
  - rewrite app_cons, !free_cons, IH. tauto.
Qed.

Lemma free_startswith (c : ascii) (s : string) :
  free c s -> Str.startswith s (String c "") = false.
Proof. destruct s; simpl; [reflexivity|]. now intros [H _]%orb_false_iff. Qed.

Lemma split_free (c : ascii) (s w : string) :
  In w (Str.split c s) -> free c w.
Proof.
  revert w. induction s as [|a s IH]; intros w; simpl.
  - intros [<- | []]. reflexivity.
  - destruct (Ascii.eqb a c) eqn:E.
    + intros [<- | H]; [reflexivity | now apply IH].
    + destruct (Str.split c s) as [|w0 ws] eqn:Es.
      * intros [<- | []]. apply free_cons. split; [|reflexivity].
        now rewrite Ascii.eqb_sym.
      * intros [<- | H].
        -- apply free_cons. split; [now rewrite Ascii.eqb_sym|].
           apply IH. now left.
        -- apply IH. now right.
Qed.

Lemma endswith_cons (a c : ascii) (s : string) :
  Str.endswith (String a s) (String c "")
  = match s with
    | EmptyString => Ascii.eqb a c
    | _ => Str.endswith s (String c "")
    end.
Proof.
  unfold Str.endswith. destruct s as [|b s].
  - simpl. destruct (Ascii.eqb a c); reflexivity.
  - cbn [String.length]. 
    replace (S (S (String.length s)) - 1)%nat with (S (String.length s - 0)) by lia.
    replace (S (String.length s) - 1)%nat with (String.length s - 0)%nat by lia.
    reflexivity.
Qed.

Lemma endswith_app (c : ascii) (a b : string) :
  b <> "" -> Str.endswith (a +:+ b) (String c "") = Str.endswith b (String c "").
Proof.
  intros Hb. induction a as [|x a IH]; [reflexivity|].
  rewrite app_cons, endswith_cons, IH.
  destruct (a +:+ b) eqn:E; [|reflexivity].
  destruct a; [contradiction | discriminate].
Qed.

Lemma free_endswith (c : ascii) (s : string) :
  free c s -> Str.endswith s (String c "") = false.
Proof.
  induction s as [|a s IH]; [reflexivity|].
  intros [Hc Hs]%free_cons. rewrite endswith_cons.
  destruct s; [now rewrite Ascii.eqb_sym | now apply IH].
Qed.

Lemma rfind_bounds (c : ascii) (s : string) : -1 <= Str.rfind c s < Str.len s.
Proof.
  unfold Str.len. induction s as [|a s IH]; simpl; [lia|].
  destruct (0 <=? Str.rfind c s) eqn:E; [lia|].
  destruct (Ascii.eqb a c); lia.
Qed.

Lemma rfind_free (c : ascii) (s : string) : free c s -> Str.rfind c s = -1.
Proof.
  induction s as [|a s IH]; [reflexivity|].
  intros [Hc Hs]%free_cons. simpl. rewrite (IH Hs). simpl.
  now rewrite Ascii.eqb_sym, Hc.
Qed.

Lemma rfind_app (c : ascii) (a b : string) :
  Str.rfind c (a +:+ b)
  = if 0 <=? Str.rfind c b then Str.len a + Str.rfind c b else Str.rfind c a.
Proof.
  unfold Str.len. induction a as [|x a IH].
  - rewrite app_nil_l. cbn [Str.rfind String.length].
    pose proof (rfind_bounds c b). destruct (0 <=? Str.rfind c b) eqn:E; lia.
  - rewrite app_cons.
    cbn [Str.rfind String.length]. rewrite IH.
    pose proof (rfind_bounds c b).
    destruct (0 <=? Str.rfind c b) eqn:E.
    + destruct (0 <=? Z.of_nat (String.length a) + Str.rfind c b) eqn:E2; lia.
    + reflexivity.
Qed.

End StrFacts.

Module PathFacts.
Import StrFacts.

Lemma slice_from_app (a b : string) (n : Z) :
  0 <= n -> Str.slice_from (Str.len a + n) (a +:+ b) = Str.slice_from n b.
Proof.
  intros Hn. unfold Str.slice_from, Str.len.
  replace (Z.to_nat (Z.of_nat (String.length a) + n))
    with (String.length a + Z.to_nat n)%nat by lia.
  apply drop_app.
Qed.

Lemma slice_to_app (a b : string) (n : Z) :
  0 <= n -> Str.slice_to (Str.len a + n) (a +:+ b) = a +:+ Str.slice_to n b.
Proof.
  intros Hn. unfold Str.slice_to, Str.len.
  replace (Z.to_nat (Z.of_nat (String.length a) + n))
    with (String.length a + Z.to_nat n)%nat by lia.
  apply take_app.
Qed.

Lemma len_app (a b : string) : Str.len (a +:+ b) = Str.len a + Str.len b.
Proof. unfold Str.len. rewrite length_app. lia. Qed.

(** The extension of a path is the extension of its last component. *)
Lemma splitext_join (d b : string) :
  free Path.sep b ->
  Path.splitext (d +:+ "/" +:+ b)
  = (d +:+ "/" +:+ fst (Path.splitext b), snd (Path.splitext b)).
Proof.
  intros Hb.
  assert (Hsb : Str.rfind Path.sep b = -1) by now apply rfind_free.
  assert (Hsep : Str.rfind Path.sep (d +:+ "/" +:+ b) = Str.len d).
  { rewrite rfind_app. change ("/" +:+ b) with (String "/" b).
    cbn [Str.rfind]. rewrite Hsb. simpl. lia. }
  pose proof (rfind_bounds Path.extsep b) as Hkb.
  pose proof (rfind_bounds Path.extsep d) as Hkd.
  unfold Path.splitext. rewrite Hsep, Hsb.
  destruct (0 <=? Str.rfind Path.extsep b) eqn:Ek.
  - assert (Hdot : Str.rfind Path.extsep (d +:+ "/" +:+ b)
                   = Str.len (d +:+ "/") + Str.rfind Path.extsep b).
    { rewrite <- app_assoc. rewrite rfind_app, Ek. reflexivity. }
    rewrite Hdot, len_app. change (Str.len "/") with 1.
    replace (Str.len d <? Str.len d + 1 + Str.rfind Path.extsep b) with true by lia.
    replace (-1 <? Str.rfind Path.extsep b) with true by lia.
    replace (Str.len d + 1 + Str.rfind Path.extsep b - (Str.len d + 1))
      with (Str.rfind Path.extsep b - (-1 + 1)) by lia.
    replace (Str.slice_from (Str.len d + 1) (d +:+ "/" +:+ b))
      with (Str.slice_from (-1 + 1) b).
    2:{ rewrite <- (app_assoc d "/" b).
        replace (Str.len d + 1) with (Str.len (d +:+ "/") + 0)
          by (rewrite len_app; change (Str.len "/") with 1; lia).
        rewrite slice_from_app by lia. reflexivity. }
    destruct (Str.all_char _ _); [reflexivity|].
    cbn [fst snd].
    replace (Str.len d + 1 + Str.rfind Path.extsep b)
      with (Str.len (d +:+ "/") + Str.rfind Path.extsep b)
      by (rewrite len_app; change (Str.len "/") with 1; lia).
    rewrite <- (app_assoc d "/" b).
    rewrite slice_to_app, slice_from_app by lia.
    now rewrite app_assoc.
  - assert (Hdot : Str.rfind Path.extsep (d +:+ "/" +:+ b)
                   = Str.rfind Path.extsep d).
    { rewrite <- app_assoc. rewrite rfind_app, Ek.
      rewrite rfind_app. reflexivity. }
    rewrite Hdot.
    replace (Str.len d <? Str.rfind Path.extsep d) with false by lia.
    replace (-1 <? Str.rfind Path.extsep b) with false by lia.
    reflexivity.
Qed.

Lemma join_step_plain (path b : string) :
  path <> "" -> Str.endswith path "/" = false -> free Path.sep b ->
  Path.join_step path b = path +:+ "/" +:+ b.
Proof.
  intros Hp He Hb. unfold Path.join_step, Path.sep in *.
  rewrite (free_startswith _ _ Hb), He.
  apply String.eqb_neq in Hp. now rewrite Hp.
Qed.

Lemma joined_not_empty (path b : string) : path +:+ "/" +:+ b <> "".
Proof. destruct path; discriminate. Qed.

Lemma joined_endswith (path b : string) :
  b <> "" -> free Path.sep b -> Str.endswith (path +:+ "/" +:+ b) "/" = false.
Proof.
  intros Hne Hb. unfold Path.sep in Hb.
  rewrite <- app_assoc, endswith_app by exact Hne.
  now apply free_endswith.
Qed.

End PathFacts.

Lemma last_n_app {A} (pre l : list A) (n : nat) :
  length l = n -> Str.last_n n (pre ++ l) = l.
Proof.
  intros <-. unfold Str.last_n. rewrite List.length_app.
  replace (length pre + length l - length l)%nat with (length pre) by lia.
  apply drop_app_length.
Qed.

Module CachePathFacts.
Import StrFacts PathFacts.

(** A component without the separator is cut off at the first
    separator. *)
Lemma app_sep_inj (c : ascii) (a b x y : string) :
  free c a -> free c b ->
  a +:+ String c x = b +:+ String c y -> a = b /\ x = y.
Proof.
  revert b. induction a as [|p a IH]; intros [|q b] Ha Hb H.
  - rewrite !app_nil_l in H. injection H as ->. now split.
  - rewrite app_nil_l, app_cons in H. injection H as <- _.
    apply free_cons in Hb as [Hb _]. now rewrite Ascii.eqb_refl in Hb.
  - rewrite app_nil_l, app_cons in H. injection H as -> _.
    apply free_cons in Ha as [Ha _]. now rewrite Ascii.eqb_refl in Ha.
  - rewrite !app_cons in H. injection H as -> H.
    apply free_cons in Ha as [_ Ha]. apply free_cons in Hb as [_ Hb].
    destruct (IH b Ha Hb H) as [-> ->]. now split.
Qed.

(** The path for a source with three components [d1/d2/base] at its
    end. *)
Lemma fn_netcdf_three (root name fn : string) (pre : list string)
    (d1 d2 base : string) :
  root <> "" -> Str.endswith root "/" = false ->
  Str.split Path.sep (Path.normpath fn) = pre ++ [d1; d2; base] ->
  d1 <> "" -> d2 <> "" ->
  Cache.fn_netcdf root name fn
  = root +:+ "/" +:+ d1 +:+ "/" +:+ d2 +:+ "/" +:+ fst (Path.splitext base)
    +:+ "_" +:+ Str.replace "read_" "" name +:+ ".nc".
Proof.
  intros Hroot Hend Hsplit Hd1 Hd2.
  assert (Hfree : forall w, In w [d1; d2; base] -> free Path.sep w).
  { intros w Hw. apply (split_free _ (Path.normpath fn)).
    rewrite Hsplit. apply in_or_app. now right. }
  assert (F1 : free Path.sep d1) by (apply Hfree; simpl; auto).
  assert (F2 : free Path.sep d2) by (apply Hfree; simpl; auto).
  assert (F3 : free Path.sep base) by (apply Hfree; simpl; auto).
  unfold Cache.fn_netcdf. rewrite Hsplit, (last_n_app pre _ 3) by reflexivity.
  unfold Path.join. cbn [fold_left].
  rewrite (join_step_plain root d1) by assumption.
  rewrite (join_step_plain _ d2);
    [| apply joined_not_empty | now apply joined_endswith | assumption].
  rewrite (join_step_plain _ base);
    [| apply joined_not_empty | now apply joined_endswith | assumption].
  rewrite splitext_join by assumption. cbn [fst].
  now rewrite !app_assoc.
Qed.

Lemma replace_read_prefix (t : string) :
  Str.replace "read_" "" ("read_" +:+ t) = Str.replace "read_" "" t.
Proof. reflexivity. Qed.

Lemma replace_absent (old new s : string) :
  Str.contains old s = false -> Str.replace old new s = s.
Proof.
  unfold Str.replace. induction s as [|a s IH]; [reflexivity|].
  cbn [Str.contains Str.replace_go]. intros [H1 H2]%orb_false_iff.
  rewrite H1. now rewrite IH.
Qed.

End CachePathFacts.

(** * The canonical cache path *)

(** C5, as documented, fails: on an ordinary input the code's path has the
    source's last two directories and then the file, not the three last
    segments and then the file again; and for a reader whose name holds
    "read_" a second time, the table name loses that occurrence too. *)
Lemma documented_cache_path_differs :
  Cache.fn_netcdf "/store" "read_class_table" "/data/L2/20230101/stack_1.fits"
    = "/store/L2/20230101/stack_1_class_table.nc"
  /\ documented_cache_path "/store" "read_class_table" "/data/L2/20230101/stack_1.fits"
    = "/store/L2/20230101/stack_1.fits/stack_1_class_table.nc"
  /\ Cache.fn_netcdf "/store" "read_class_table" "/data/L2/20230101/stack_1.fits"
     <> documented_cache_path "/store" "read_class_table" "/data/L2/20230101/stack_1.fits"
  /\ Cache.fn_netcdf "/store" "read_spread_table" "/data/L2/20230101/stack_1.fits"
    = "/store/L2/20230101/stack_1_sptable.nc"
  /\ strip_prefix "read_" "read_spread_table" = "spread_table".
Proof. repeat split; try reflexivity. vm_compute. discriminate. Qed.

(** C5, amended: for a cache root that is not empty and does not end in a
    separator, and a source whose normalised path ends in the three
    components [d1], [d2] (not empty) and [base], the canonical cache path
    is [<root>/<d1>/<d2>/<base without extension>_<table>.nc], where
    [<table>] is the reader's name with every "read_" removed; for a name
    [read_<t>] with no "read_" in [t], that is [t]. *)
Theorem fn_netcdf_format (root name fn : string) (pre : list string)
    (d1 d2 base : string) :
  root <> "" -> Str.endswith root "/" = false ->
  Str.split Path.sep (Path.normpath fn) = pre ++ [d1; d2; base] ->
  d1 <> "" -> d2 <> "" ->
  Cache.fn_netcdf root name fn
  = root +:+ "/" +:+ d1 +:+ "/" +:+ d2 +:+ "/" +:+ fst (Path.splitext base)
    +:+ "_" +:+ Str.replace "read_" "" name +:+ ".nc"
  /\ (forall t, name = "read_" +:+ t -> Str.contains "read_" t = false ->
      Cache.fn_netcdf root name fn
      = root +:+ "/" +:+ d1 +:+ "/" +:+ d2 +:+ "/" +:+ fst (Path.splitext base)
        +:+ "_" +:+ t +:+ ".nc").
Proof.
  intros Hroot Hend Hsplit Hd1 Hd2.
  pose proof (CachePathFacts.fn_netcdf_three root name fn pre d1 d2 base
                Hroot Hend Hsplit Hd1 Hd2) as H.
  split; [exact H|].
  intros t -> Ht. rewrite H, CachePathFacts.replace_read_prefix.
  now rewrite (CachePathFacts.replace_absent _ _ _ Ht).
Qed.

Lemma fn_netcdf_format_witness :
  Cache.fn_netcdf "/store" "read_star_spec" "/data/../survey/L2/20230101/./stack_1.fits"
  = "/store/L2/20230101/stack_1_star_spec.nc".
Proof.
  refine (proj2 (fn_netcdf_format "/store" "read_star_spec"
                   "/data/../survey/L2/20230101/./stack_1.fits"
                   [""; "survey"] "L2" "20230101" "stack_1.fits" _ _ _ _ _)
                "star_spec" _ _);
    solve [reflexivity | discriminate].
Defined.

(** C3, as stated, fails: two sources that differ in their last component
    only by the extension share a path under one reader; and so do two
    pairs that differ both in the table name and in the file name, when
    the two names meet at another underscore. *)
Lemma fn_netcdf_collides :
  (Str.last_n 3 (Str.split Path.sep (Path.normpath "/data/L2/20230101/stack_1.fits"))
    <> Str.last_n 3 (Str.split Path.sep (Path.normpath "/data/L2/20230101/stack_1.fit"))
  /\ Cache.fn_netcdf "/store" "read_class_table" "/data/L2/20230101/stack_1.fits"
     = Cache.fn_netcdf "/store" "read_class_table" "/data/L2/20230101/stack_1.fit")
  /\ (Str.replace "read_" "" "read_class_table" <> Str.replace "read_" "" "read_table"
      /\ Str.last_n 3 (Str.split Path.sep (Path.normpath "/data/L2/20230101/stack.fits"))
         <> Str.last_n 3 (Str.split Path.sep (Path.normpath "/data/L2/20230101/stack_class.fits"))
      /\ Cache.fn_netcdf "/store" "read_class_table" "/data/L2/20230101/stack.fits"
         = Cache.fn_netcdf "/store" "read_table" "/data/L2/20230101/stack_class.fits").
Proof.
  repeat split; try reflexivity; vm_compute; discriminate.
Qed.

(** C3, amended: under one cache root, two pairs whose sources end in the
    same (up to three) normalised components and whose table names differ
    have distinct paths; and two pairs with one table name, whose sources
    end in three components [a1/a2/a3] and [b1/b2/b3] (the directories not
    empty, the root not empty and without a final separator), have the
    same path exactly when the directories agree and the file names agree
    once their extensions are removed. *)
Theorem fn_netcdf_distinct (root nameA nameB fnA fnB : string) :
  (Str.last_n 3 (Str.split Path.sep (Path.normpath fnA))
   = Str.last_n 3 (Str.split Path.sep (Path.normpath fnB)) ->
   Str.replace "read_" "" nameA <> Str.replace "read_" "" nameB ->
   Cache.fn_netcdf root nameA fnA <> Cache.fn_netcdf root nameB fnB)
  /\ (forall (preA preB : list string) (a1 a2 a3 b1 b2 b3 : string),
      root <> "" -> Str.endswith root "/" = false ->
      Str.split Path.sep (Path.normpath fnA) = preA ++ [a1; a2; a3] ->
      Str.split Path.sep (Path.normpath fnB) = preB ++ [b1; b2; b3] ->
      a1 <> "" -> a2 <> "" -> b1 <> "" -> b2 <> "" ->
      Str.replace "read_" "" nameA = Str.replace "read_" "" nameB ->
      (Cache.fn_netcdf root nameA fnA = Cache.fn_netcdf root nameB fnB
       <-> a1 = b1 /\ a2 = b2
           /\ fst (Path.splitext a3) = fst (Path.splitext b3))).
Proof.
  split.
  - intros Hsame Hdiff H. unfold Cache.fn_netcdf in H. rewrite Hsame in H.
    apply StrFacts.app_inv_head in H. apply StrFacts.app_inv_head in H.
    apply StrFacts.app_inv_tail in H. contradiction.
  - intros preA preB a1 a2 a3 b1 b2 b3 Hroot Hend HA HB Ha1 Ha2 Hb1 Hb2 Ht.
    rewrite (CachePathFacts.fn_netcdf_three root nameA fnA preA a1 a2 a3) by assumption.
    rewrite (CachePathFacts.fn_netcdf_three root nameB fnB preB b1 b2 b3) by assumption.
    rewrite Ht.
    assert (FA : forall w, In w [a1; a2; a3] -> Str.contains "/" w = false).
    { intros w Hw. apply (StrFacts.split_free Path.sep (Path.normpath fnA)).
      rewrite HA. apply in_or_app. now right. }
    assert (FB : forall w, In w [b1; b2; b3] -> Str.contains "/" w = false).
    { intros w Hw. apply (StrFacts.split_free Path.sep (Path.normpath fnB)).
      rewrite HB. apply in_or_app. now right. }
    split.
    + intros H.
      apply StrFacts.app_inv_head in H. apply StrFacts.app_inv_head in H.
      apply CachePathFacts.app_sep_inj in H as [-> H];
        [| apply FA; simpl; auto | apply FB; simpl; auto].
      apply CachePathFacts.app_sep_inj in H as [-> H];
        [| apply FA; simpl; auto | apply FB; simpl; auto].
      apply StrFacts.app_inv_tail in H. auto.
    + intros (-> & -> & ->). reflexivity.
Qed.

Lemma fn_netcdf_distinct_witness :
  Cache.fn_netcdf "/store" "read_star_spec" "/data/L2/20230101/stack_1.fits"
    <> Cache.fn_netcdf "/store" "read_class_spec" "/data/L2/20230101/stack_1.fits"
  /\ Cache.fn_netcdf "/store" "read_star_spec" "/data/L2/20230101/stack_1.fits"
    <> Cache.fn_netcdf "/store" "read_star_spec" "/data/L2/20230102/stack_1.fits".
Proof.
  split.
  - apply (proj1 (fn_netcdf_distinct "/store" "read_star_spec" "read_class_spec"
                    "/data/L2/20230101/stack_1.fits"
                    "/data/L2/20230101/stack_1.fits"));
      [reflexivity | discriminate].
  - intros H.
    apply (proj2 (fn_netcdf_distinct "/store" "read_star_spec" "read_star_spec"
                    "/data/L2/20230101/stack_1.fits"
                    "/data/L2/20230102/stack_1.fits")
                 [""; "data"] [""; "data"]
                 "L2" "20230101" "stack_1.fits" "L2" "20230102" "stack_1.fits")
      in H; try solve [reflexivity | discriminate].
    destruct H as (_ & H & _). discriminate H.
Defined.

(** * [not_line_col] *)

(** C10: for every column name [c], [not_line_col ("ERR_" + c)] is
    [not_line_col c]; so past the positional cutoff of [read_galaxy_table]
    (index above 100) a column and its error column are both renamed or
    both kept. *)
Theorem not_line_col_ERR (c : string) :
  not_line_col ("ERR_" +:+ c) = not_line_col c
  /\ (forall i j : nat,
      galaxy_table_name (101 + i) ("ERR_" +:+ c)
      = (if not_line_col c then "IDX_" +:+ "ERR_" +:+ c else "ERR_" +:+ c)
      /\ galaxy_table_name (101 + j) c
         = (if not_line_col c then "IDX_" +:+ c else c)).
Proof.
  assert (H : not_line_col ("ERR_" +:+ c) = not_line_col c) by reflexivity.
  split; [exact H|].
  intros i j. unfold galaxy_table_name. rewrite H.
  replace (100 <? 101 + i)%nat with true by (symmetry; apply Nat.ltb_lt; lia).
  replace (100 <? 101 + j)%nat with true by (symmetry; apply Nat.ltb_lt; lia).
  split; reflexivity.
Qed.

(** * The cache *)
Module CacheFacts.
Import Cache.

Lemma get_set_eq {V} (k : string) (v : V) (d : Dict.t V) :
  Dict.get k (Dict.set k v d) = Some v.
Proof.
  induction d as [|[k' v'] d IH]; simpl.
  - now rewrite String.eqb_refl.
  - destruct (String.eqb k' k) eqn:E; simpl.
    + now rewrite String.eqb_refl.
    + now rewrite E.
Qed.

(** What [expand_dims] returns. *)
Lemma expand_dims_ok (dim label : string) (ds ds' : Xr.Dataset) :
  Xr.expand_dims dim label ds = Ok ds' ->
  Dict.get dim (Xr.coords ds') = Some (Xr.CoordNames [label])
  /\ Dict.keys (Xr.data_vars ds') = Dict.keys (Xr.data_vars ds)
  /\ Forall (fun kv => exists tl row,
                 Xr.dims (snd kv) = dim :: tl
                 /\ Np.rows (Xr.values (snd kv)) = [row])
            (Xr.data_vars ds').
Proof.
  unfold Xr.expand_dims.
  destruct (Xr.strs_mem dim (Xr.dim_names ds)); [discriminate|].
  destruct (Xr.strs_mem dim (Dict.keys (Xr.data_vars ds))); [discriminate|].
  intros [= <-]. cbn [Xr.coords Xr.data_vars]. split; [apply get_set_eq|].
  split.
  - unfold Dict.keys, Dict.map_values. rewrite map_map. reflexivity.
  - unfold Dict.map_values. apply Forall_map. apply Forall_forall.
    intros kv _. simpl. eauto.
Qed.

(** The file of a write that returned holds the dataset. *)
Lemma to_netcdf_ok (ds : Xr.Dataset) (p : string) (w w' : world) (u : unit) :
  to_netcdf ds p w = (Ok u, w') -> fs w' !! p = Some (File (Some ds)).
Proof.
  unfold to_netcdf, bind, put, emit.
  destruct (fs w !! p) as [[|c]|]; try discriminate;
    cbn [capacity]; destruct (capacity w); try discriminate;
    intros [= _ <-]; cbn [fs]; apply lookup_insert_eq.
Qed.

(** A call that finds the file returns at once. *)
Lemma single_present (store : string) (r : read_function) (fn : string) (w : world) :
  is_Some (fs w !! fn_netcdf store (__name__ r) fn) ->
  single_via_netcdf store r fn w = (Ok (fn_netcdf store (__name__ r) fn), w).
Proof.
  intros H. unfold single_via_netcdf, bind, exists_.
  rewrite bool_decide_eq_true_2 by exact H. reflexivity.
Qed.

(** A call that does not find the file, step by step. *)
Lemma single_absent (store : string) (r : read_function) (fn : string) (w : world) :
  fs w !! fn_netcdf store (__name__ r) fn = None ->
  single_via_netcdf store r fn w
  = match call r fn with
    | Raise e => (Raise e, logged (EvRead fn) w)
    | Ok ds0 =>
        match Xr.expand_dims "filename" (fst (Path.splitext (Path.basename fn))) ds0 with
        | Raise e => (Raise e, logged (EvRead fn) w)
        | Ok ds =>
            match makedirs (Path.dirname (fn_netcdf store (__name__ r) fn))
                           (logged (EvRead fn) w) with
            | (Raise e, w1) => (Raise e, w1)
            | (Ok _, w1) =>
                match to_netcdf ds (fn_netcdf store (__name__ r) fn) w1 with
                | (Raise e, w2) => (Raise e, w2)
                | (Ok _, w2) => (Ok (fn_netcdf store (__name__ r) fn), w2)
                end
            end
        end
    end.
Proof.
  intros H. unfold single_via_netcdf, bind, exists_.
  rewrite bool_decide_eq_false_2 by (rewrite H; intros [? ?]; discriminate).
  cbn [negb]. unfold call_reader, bind, emit, lift, logged.
  destruct (call r fn) as [ds0|e]; [|reflexivity].
  destruct (Xr.expand_dims _ _ ds0) as [ds|e]; [|reflexivity].
  destruct (makedirs _ _) as [[u|e] w1]; [|reflexivity].
  destruct (to_netcdf _ _ w1) as [[u'|e] w2]; reflexivity.
Qed.

(** After a call that returned, the file is there. *)
Lemma single_ok_present (store : string) (r : read_function) (fn : string)
    (w w' : world) (p : string) :
  single_via_netcdf store r fn w = (Ok p, w') ->
  p = fn_netcdf store (__name__ r) fn /\ is_Some (fs w' !! p).
Proof.
  destruct (fs w !! fn_netcdf store (__name__ r) fn) as [n|] eqn:E.
  - rewrite single_present by (rewrite E; eauto).
    intros [= <- <-]. split; [reflexivity | rewrite E; eauto].
  - rewrite single_absent by exact E.
    destruct (call r fn) as [ds0|e]; [|discriminate].
    destruct (Xr.expand_dims _ _ ds0) as [ds|e]; [|discriminate].
    destruct (makedirs _ _) as [[u|e] w1]; [|discriminate].
    destruct (to_netcdf _ _ w1) as [[u'|e] w2] eqn:Ew; [|discriminate].
    intros [= <- <-]. split; [reflexivity|].
    rewrite (to_netcdf_ok _ _ _ _ _ Ew). eauto.
Qed.


End CacheFacts.

(** C1: a call of [single_via_netcdf] that finds a file at the canonical
    path returns that path at once and changes nothing; and when a call
    has returned a path, a second call with the same reader and file
    returns the same path and leaves the file system and the log as they
    are: no call of the reader, no directory made, no file written. *)
Theorem single_via_netcdf_idempotent (store : string)
    (r : Cache.read_function) (fn : string) :
  (forall w : Cache.world,
      is_Some (Cache.fs w !! Cache.fn_netcdf store (Cache.__name__ r) fn) ->
      Cache.single_via_netcdf store r fn w
      = (Ok (Cache.fn_netcdf store (Cache.__name__ r) fn), w))
  /\ (forall (w w' : Cache.world) (p : string),
      Cache.single_via_netcdf store r fn w = (Ok p, w') ->
      p = Cache.fn_netcdf store (Cache.__name__ r) fn
      /\ Cache.single_via_netcdf store r fn w' = (Ok p, w')).
Proof.
  split.
  - intros w H. now apply CacheFacts.single_present.
  - intros w w' p H.
    destruct (CacheFacts.single_ok_present _ _ _ _ _ _ H) as [-> Hp].
    split; [reflexivity|]. now apply CacheFacts.single_present.
Qed.

Lemma single_via_netcdf_idempotent_witness :
  exists (p : string) (w' : Cache.world),
    Cache.single_via_netcdf "/store" Demo.reader "/data/L2/20230101/stack_1.fits"
                            (Demo.disk 1) = (Ok p, w')
    /\ Cache.single_via_netcdf "/store" Demo.reader "/data/L2/20230101/stack_1.fits"
                               w' = (Ok p, w').
Proof.
  destruct (Cache.single_via_netcdf "/store" Demo.reader
              "/data/L2/20230101/stack_1.fits" (Demo.disk 1))
    as [[p|e] w'] eqn:E; [|vm_compute in E; discriminate E].
  exists p, w'. split; [reflexivity|].
  exact (proj2 (proj2 (single_via_netcdf_idempotent "/store" Demo.reader
                         "/data/L2/20230101/stack_1.fits") _ _ _ E)).
Defined.

(** C2, as stated, fails: [to_netcdf] is given the canonical path itself,
    so a write that breaks off (here: no space left) leaves the file
    there without its contents; [os.path.exists] then takes it for a
    cached artifact, and the next call returns its path without reading
    the source. *)
Lemma partial_artifact_left :
  let p := "/store/L2/20230101/stack_1_star_spec.nc" in
  let run := Cache.single_via_netcdf "/store" Demo.reader
               "/data/L2/20230101/stack_1.fits" in
  Cache.fs (Demo.disk 0) !! p = None
  /\ fst (run (Demo.disk 0)) = Raise (OSError "No space left on device")
  /\ Cache.fs (snd (run (Demo.disk 0))) !! p = Some (Cache.File None)
  /\ run (snd (run (Demo.disk 0))) = (Ok p, snd (run (Demo.disk 0))).
Proof. vm_compute. repeat split. Qed.

(** C2, amended: when no artifact is at the canonical path and the reader
    fails, the call raises the reader's error and the file system is
    unchanged, only the call of the reader is logged; and when the call
    returns, the file at the canonical path holds the whole dataset: the
    reader's result with the "filename" dimension. The dataset is built in
    memory before [to_netcdf] is called on the canonical path. *)
Theorem single_via_netcdf_artifact (store : string)
    (r : Cache.read_function) (fn : string) (w : Cache.world) :
  Cache.fs w !! Cache.fn_netcdf store (Cache.__name__ r) fn = None ->
  (forall e, Cache.call r fn = Raise e ->
     Cache.single_via_netcdf store r fn w = (Raise e, Cache.logged (Cache.EvRead fn) w))
  /\ (forall p w', Cache.single_via_netcdf store r fn w = (Ok p, w') ->
      exists ds0 ds,
        Cache.call r fn = Ok ds0
        /\ Xr.expand_dims "filename" (fst (Path.splitext (Path.basename fn))) ds0 = Ok ds
        /\ Cache.fs w' !! Cache.fn_netcdf store (Cache.__name__ r) fn
           = Some (Cache.File (Some ds))).
Proof.
  intros Habs. rewrite (CacheFacts.single_absent _ _ _ _ Habs). split.
  - intros e ->. reflexivity.
  - intros p w'.
    destruct (Cache.call r fn) as [ds0|e]; [|discriminate].
    destruct (Xr.expand_dims _ _ ds0) as [ds|e] eqn:Ex; [|discriminate].
    destruct (Cache.makedirs _ _) as [[u|e] w1]; [|discriminate].
    destruct (Cache.to_netcdf _ _ w1) as [[u'|e] w2] eqn:Ew; [|discriminate].
    intros [= <- <-]. exists ds0, ds.
    split; [reflexivity|]. split; [exact Ex|].
    exact (CacheFacts.to_netcdf_ok _ _ _ _ _ Ew).
Qed.

Lemma single_via_netcdf_artifact_witness :
  Cache.single_via_netcdf "/store" Demo.reader "/data/L2/20230101/missing.fits"
                          (Demo.disk 1)
  = (Raise (OSError "No such file or directory"),
     Cache.logged (Cache.EvRead "/data/L2/20230101/missing.fits") (Demo.disk 1)).
Proof.
  apply (proj1 (single_via_netcdf_artifact "/store" Demo.reader
                  "/data/L2/20230101/missing.fits" (Demo.disk 1) eq_refl)).
  reflexivity.
Defined.

(** C8: when [single_via_netcdf] finds no artifact and returns, the
    dataset in the file it wrote has the coordinate "filename" with one
    value, the base name of the source file without its extension, and
    every data variable has "filename" as its first dimension, of length
    one. *)
Theorem written_dataset_filename (store : string)
    (r : Cache.read_function) (fn : string) (w w' : Cache.world) (p : string) :
  Cache.fs w !! Cache.fn_netcdf store (Cache.__name__ r) fn = None ->
  Cache.single_via_netcdf store r fn w = (Ok p, w') ->
  exists ds,
    Cache.fs w' !! p = Some (Cache.File (Some ds))
    /\ Dict.get "filename" (Xr.coords ds)
       = Some (Xr.CoordNames [fst (Path.splitext (Path.basename fn))])
    /\ Forall (fun kv => exists tl row,
                   Xr.dims (snd kv) = "filename" :: tl
                   /\ Np.rows (Xr.values (snd kv)) = [row])
              (Xr.data_vars ds).
Proof.
  intros Habs H.
  destruct (CacheFacts.single_ok_present _ _ _ _ _ _ H) as [-> _].
  rewrite (CacheFacts.single_absent _ _ _ _ Habs) in H.
  destruct (Cache.call r fn) as [ds0|e]; [|discriminate].
  destruct (Xr.expand_dims _ _ ds0) as [ds|e] eqn:Ex; [|discriminate].
  destruct (Cache.makedirs _ _) as [[u|e] w1]; [|discriminate].
  destruct (Cache.to_netcdf _ _ w1) as [[u'|e] w2] eqn:Ew; [|discriminate].
  injection H as <-. exists ds.
  destruct (CacheFacts.expand_dims_ok _ _ _ _ Ex) as (Hc & _ & Hv).
  split; [exact (CacheFacts.to_netcdf_ok _ _ _ _ _ Ew) | now split].
Qed.

Lemma written_dataset_filename_witness :
  exists ds,
    Cache.fs (snd (Cache.single_via_netcdf "/store" Demo.reader
                     "/data/L2/20230101/stack_1.fits" (Demo.disk 1)))
      !! "/store/L2/20230101/stack_1_star_spec.nc"
    = Some (Cache.File (Some ds))
    /\ Dict.get "filename" (Xr.coords ds) = Some (Xr.CoordNames ["stack_1"])
    /\ Forall (fun kv => exists tl row,
                   Xr.dims (snd kv) = "filename" :: tl
                   /\ Np.rows (Xr.values (snd kv)) = [row])
              (Xr.data_vars ds).
Proof.
  apply (written_dataset_filename "/store" Demo.reader
           "/data/L2/20230101/stack_1.fits" (Demo.disk 1)).
  - reflexivity.
  - vm_compute. reflexivity.
Defined.




(** * The readers *)
Module DictFacts.

Section Facts.
Context {V : Type}.
Implicit Types (d : Dict.t V) (k c : string) (v : V).

Lemma get_set_ne k c v d : c <> k -> Dict.get k (Dict.set c v d) = Dict.get k d.
Proof.
  intros Hne. induction d as [|[k' v'] d IH]; simpl.
  - apply String.eqb_neq in Hne. now rewrite Hne.
  - destruct (String.eqb k' c) eqn:E; simpl.
    + apply String.eqb_eq in E as ->.
      apply String.eqb_neq in Hne. now rewrite Hne.
    + now rewrite IH.
Qed.

Lemma get_keys k d : Dict.get k d <> None <-> In k (Dict.keys d).
Proof.
  induction d as [|[k' v'] d IH]; simpl; [tauto|].
  destruct (String.eqb_spec k' k) as [->|Hne].
  - split; [auto | discriminate].
  - rewrite IH. split; [auto | intros [?|?]; [contradiction | assumption]].
Qed.

Lemma get_None k d : Dict.get k d = None <-> ~ In k (Dict.keys d).
Proof.
  rewrite <- get_keys. destruct (Dict.get k d); split; try tauto; try discriminate.
  intros H. exfalso. apply H. discriminate.
Qed.

Lemma keys_set k c v d :
  In k (Dict.keys (Dict.set c v d)) <-> k = c \/ In k (Dict.keys d).
Proof.
  induction d as [|[k' v'] d IH]; simpl.
  - split; [intros [<-|[]]; auto | intros [->|[]]; auto].
  - destruct (String.eqb_spec k' c) as [->|Hne]; simpl.
    + intuition congruence.
    + rewrite IH. intuition congruence.
Qed.

Lemma NoDup_set c v d : List.NoDup (Dict.keys d) -> List.NoDup (Dict.keys (Dict.set c v d)).
Proof.
  induction d as [|[k' v'] d IH]; simpl; intros H.
  - constructor; [intros [] | constructor].
  - destruct (String.eqb_spec k' c) as [->|Hne]; simpl; [exact H|].
    apply List.NoDup_cons_iff in H as [Hk Hd].
    apply List.NoDup_cons_iff. split; [|auto].
    intros [->|Hin]%keys_set; [now apply Hne | contradiction].
Qed.

Lemma NoDup_of_list (l : list (string * V)) : List.NoDup (Dict.keys (Dict.of_list l)).
Proof.
  unfold Dict.of_list.
  assert (H : forall d, List.NoDup (Dict.keys d) ->
            List.NoDup (Dict.keys (fold_left (fun d kv => Dict.set (fst kv) (snd kv) d) l d))).
  { induction l as [|kv l IH]; intros d Hd; simpl; [exact Hd|].
    apply IH. now apply NoDup_set. }
  apply H. constructor.
Qed.

Lemma keys_remove k c d : In k (Dict.keys (Dict.remove c d)) -> In k (Dict.keys d).
Proof.
  induction d as [|[k' v'] d IH]; simpl; [tauto|].
  destruct (String.eqb k' c); simpl; [auto | intros [?|?]; auto].
Qed.

Lemma NoDup_remove c d : List.NoDup (Dict.keys d) -> List.NoDup (Dict.keys (Dict.remove c d)).
Proof.
  induction d as [|[k' v'] d IH]; simpl; intros H; [exact H|].
  apply List.NoDup_cons_iff in H as [Hk Hd].
  destruct (String.eqb k' c); simpl; [exact Hd|].
  apply List.NoDup_cons_iff. split; [|auto].
  intros Hin. apply Hk. now apply keys_remove in Hin.
Qed.

Lemma get_remove_ne k c d : c <> k -> Dict.get k (Dict.remove c d) = Dict.get k d.
Proof.
  intros Hne. induction d as [|[k' v'] d IH]; simpl; [reflexivity|].
  destruct (String.eqb_spec k' c) as [->|Hc]; simpl.
  - apply String.eqb_neq in Hne. now rewrite Hne.
  - now rewrite IH.
Qed.

Lemma get_remove_eq c d : List.NoDup (Dict.keys d) -> Dict.get c (Dict.remove c d) = None.
Proof.
  induction d as [|[k' v'] d IH]; simpl; intros H; [reflexivity|].
  apply List.NoDup_cons_iff in H as [Hk Hd].
  destruct (String.eqb_spec k' c) as [->|Hc]; simpl.
  - now apply get_None.
  - apply String.eqb_neq in Hc. rewrite Hc. auto.
Qed.

Lemma Forall_set (P : string * V -> Prop) c v d :
  P (c, v) -> Forall P d -> Forall P (Dict.set c v d).
Proof.
  intros Hv. induction 1 as [|[k' v'] d Hx Hd IH]; simpl.
  - constructor; [exact Hv | constructor].
  - destruct (String.eqb k' c); constructor; auto.
Qed.
End Facts.

Lemma keys_map_values {V W} (f : V -> W) (d : Dict.t V) :
  Dict.keys (Dict.map_values f d) = Dict.keys d.
Proof. unfold Dict.keys, Dict.map_values. rewrite map_map. reflexivity. Qed.

Lemma get_map_values {V W} (f : V -> W) (k : string) (d : Dict.t V) :
  Dict.get k (Dict.map_values f d) = option_map f (Dict.get k d).
Proof.
  induction d as [|[k' v'] d IH]; simpl; [reflexivity|].
  destruct (String.eqb k' k); [reflexivity | exact IH].
Qed.

End DictFacts.

Module PromoteFacts.
Import DictFacts.

Section Promote.
Variable ar : Np.arith.
Variable sel : string -> bool.
Variable cname : string -> string.

Lemma fold_raise (ks : list string) (e : exn) :
  fold_left (promote_step ar sel cname) ks (Raise e) = Raise e.
Proof. induction ks as [|c ks IH]; simpl; [reflexivity | exact IH]. Qed.


(** One round on a selected column that is there. *)
Lemma step_selected (c : string) (cols : Dict.t Column)
    (coords : Dict.t Xr.coord) (col : Column) :
  sel c = true -> Dict.get c cols = Some col ->
  promote_step ar sel cname (Ok (cols, coords)) c
  = match shared_axis ar col with
    | Ok m => Ok (Dict.remove c cols, Dict.set (cname c) (Xr.as_coord m) coords)
    | Raise e => Raise e
    end.
Proof.
  intros Hs Hg. unfold promote_step, rbind, Dict.pop. cbn [fst snd].
  rewrite Hs, Hg. cbn [fst snd]. destruct (shared_axis ar col); reflexivity.
Qed.

Lemma step_missing (c : string) (cols : Dict.t Column) (coords : Dict.t Xr.coord) :
  sel c = true -> Dict.get c cols = None ->
  promote_step ar sel cname (Ok (cols, coords)) c = Raise (KeyError c).
Proof.
  intros Hs Hg. unfold promote_step, rbind, Dict.pop. cbn [fst snd].
  now rewrite Hs, Hg.
Qed.

Lemma step_other (c : string) (cc : Dict.t Column * Dict.t Xr.coord) :
  sel c = false -> promote_step ar sel cname (Ok cc) c = Ok cc.
Proof. intros Hs. unfold promote_step, rbind. now rewrite Hs. Qed.

Lemma mem_cons (k c : string) (ks : list string) :
  existsb (String.eqb k) (c :: ks) = String.eqb k c || existsb (String.eqb k) ks.
Proof. reflexivity. Qed.

Lemma mem_false (k : string) (ks : list string) :
  ~ In k ks -> existsb (String.eqb k) ks = false.
Proof.
  intros H. apply not_true_is_false. intros (x & Hx & ->%String.eqb_eq)%existsb_exists.
  contradiction.
Qed.

(** The loop, when it comes to its end. *)
Lemma promote_ok (ks : list string) :
  forall (cols : Dict.t Column) (coords : Dict.t Xr.coord)
         (cols' : Dict.t Column) (coords' : Dict.t Xr.coord),
    List.NoDup ks -> List.NoDup (Dict.keys cols) ->
    fold_left (promote_step ar sel cname) ks (Ok (cols, coords)) = Ok (cols', coords') ->
    (forall k, Dict.get k cols'
               = if sel k && existsb (String.eqb k) ks then None
                 else Dict.get k cols)
    /\ (forall c, In c ks -> sel c = true ->
          exists col m, Dict.get c cols = Some col /\ shared_axis ar col = Ok m)
    /\ (forall c, In c ks -> sel c = true ->
          exists c' col m,
            In c' ks /\ sel c' = true /\ cname c' = cname c
            /\ Dict.get c' cols = Some col /\ shared_axis ar col = Ok m
            /\ Dict.get (cname c) coords' = Some (Xr.as_coord m))
    /\ (forall k, (forall c, In c ks -> sel c = true -> cname c <> k) ->
          Dict.get k coords' = Dict.get k coords).
Proof.
  induction ks as [|c ks IH]; intros cols coords cols' coords' Hks Hcols Hfold.
  - cbn [fold_left] in Hfold. injection Hfold as <- <-.
    repeat split; try (intros ? []).
    intros k. cbn [existsb]. now rewrite andb_false_r.
  - apply List.NoDup_cons_iff in Hks as [Hc Hks].
    cbn [fold_left] in Hfold.
    destruct (sel c) eqn:Hs.
    + destruct (Dict.get c cols) as [col|] eqn:Hg.
      2:{ rewrite step_missing, fold_raise in Hfold by assumption. discriminate. }
      rewrite (step_selected c cols coords col Hs Hg) in Hfold.
      destruct (shared_axis ar col) as [m|e] eqn:Hm.
      2:{ rewrite fold_raise in Hfold. discriminate. }
      destruct (IH _ _ _ _ Hks (NoDup_remove c cols Hcols) Hfold)
        as (H1 & H2 & H3 & H4).
      assert (Hne : forall c', In c' ks -> c <> c').
      { intros c' Hin ->. contradiction. }
      repeat split.
      * intros k. rewrite H1, mem_cons.
        destruct (String.eqb_spec k c) as [->|Hk].
        -- rewrite Hs, (mem_false c ks Hc). cbn.
           now apply get_remove_eq.
        -- rewrite orb_false_l, get_remove_ne by congruence. reflexivity.
      * intros c0 [<-|Hin] Hs0; [eauto|].
        destruct (H2 c0 Hin Hs0) as (col0 & m0 & Hg0 & Hm0).
        rewrite get_remove_ne in Hg0 by auto. eauto.
      * intros c0 Hin0 Hs0.
        destruct (existsb (fun c' => sel c' && String.eqb (cname c') (cname c0)) ks)
          eqn:Elater.
        -- apply existsb_exists in Elater as (c1 & Hin1 & [Hs1 He1%String.eqb_eq]%andb_prop).
           destruct (H3 c1 Hin1 Hs1) as (c' & col' & m' & Hin' & Hs' & Hn' & Hg' & Hm' & Hco').
           exists c', col', m'. rewrite get_remove_ne in Hg' by auto.
           repeat split; auto; try congruence. now right.
        -- assert (Hnone : forall c', In c' ks -> sel c' = true -> cname c' <> cname c0).
           { intros c' Hin' Hs' He.
             assert (existsb (fun c' => sel c' && String.eqb (cname c') (cname c0)) ks = true);
               [|congruence].
             apply existsb_exists. exists c'. split; [assumption|].
             now rewrite Hs', He, String.eqb_refl. }
           destruct Hin0 as [<-|Hin0].
           ++ exists c, col, m. repeat split; auto; [now left|].
              rewrite (H4 _ Hnone). apply CacheFacts.get_set_eq.
           ++ exfalso. now apply (Hnone c0 Hin0 Hs0).
      * intros k Hk. rewrite H4 by (intros c' Hin'; apply Hk; now right).
        apply get_set_ne. apply Hk; [now left | assumption].
    + rewrite (step_other c _ Hs) in Hfold.
      destruct (IH _ _ _ _ Hks Hcols Hfold) as (H1 & H2 & H3 & H4).
      repeat split.
      * intros k. rewrite H1, mem_cons.
        destruct (String.eqb_spec k c) as [->|Hk]; [|reflexivity].
        now rewrite Hs.
      * intros c0 [<-|Hin] Hs0; [congruence | auto].
      * intros c0 [<-|Hin] Hs0; [congruence|].
        destruct (H3 c0 Hin Hs0) as (c' & col' & m' & Hin' & Hrest).
        exists c', col', m'. split; [now right | exact Hrest].
      * intros k Hk. apply H4. intros c' Hin'. apply Hk. now right.
Qed.


End Promote.

End PromoteFacts.

Module ReaderFacts.
Import DictFacts PromoteFacts.

(** What the first statements of a reader leave. *)
Lemma columns_ok (dat : table) (cols : Dict.t Column) (coords : Dict.t Xr.coord) :
  columns dat = Ok (cols, coords) ->
  Dict.get "APS_ID" (Dict.of_list dat) <> None
  /\ cols = Dict.remove "APS_ID" (Dict.map_values swap_order (Dict.of_list dat))
  /\ List.NoDup (Dict.keys cols)
  /\ (exists a, coords = [("APS_ID", Xr.CoordArray a)]).
Proof.
  unfold columns, rbind, Dict.pop. rewrite get_map_values.
  destruct (Dict.get "APS_ID" (Dict.of_list dat)) as [aps|]; [|discriminate].
  cbn [option_map fst snd]. intros [= <- <-].
  split; [discriminate|]. split; [reflexivity|]. split; [|eauto].
  apply NoDup_remove. rewrite keys_map_values. apply NoDup_of_list.
Qed.


Lemma columns_raise (dat : table) :
  Dict.get "APS_ID" (Dict.of_list dat) = None ->
  columns dat = Raise (KeyError "APS_ID").
Proof.
  intros H. unfold columns, rbind, Dict.pop. now rewrite get_map_values, H.
Qed.


(** [xr.Variable] and the loop over the columns: what they return, and
    that they raise nothing but [ValueError]. *)
Lemma variable_ok (dims : list string) (col : Column) (v : Xr.DataArray) :
  variable dims col = Ok v ->
  v = variable_of dims col /\ length dims = Np.ndim (arr col).
Proof.
  unfold variable. destruct (Nat.eqb_spec (length dims) (Np.ndim (arr col))); [|discriminate].
  now intros [= <-].
Qed.


Lemma variables_ok (dimsf : string -> list string) (cols : Dict.t Column) :
  forall vs,
    variables dimsf cols = Ok vs ->
    vs = map (fun kv => (fst kv, variable_of (dimsf (fst kv)) (snd kv))) cols.
Proof.
  induction cols as [|[c col] cols IH]; intros vs; cbn [variables].
  - now intros [= <-].
  - unfold rbind. destruct (variable (dimsf c) col) as [v|] eqn:Ev; [|discriminate].
    destruct (variables dimsf cols) as [vs'|]; [|discriminate].
    intros [= <-]. cbn [map fst snd].
    now rewrite (IH vs' eq_refl), (proj1 (variable_ok _ _ _ Ev)).
Qed.



Lemma Dataset_init_ok (vars : Dict.t Xr.DataArray) (coords : Dict.t Xr.coord)
    (ds : Xr.Dataset) :
  Xr.Dataset_init vars coords = Ok ds -> ds = Xr.mk_Dataset vars coords.
Proof.
  unfold Xr.Dataset_init, rbind.
  destruct (existsb _ (Dict.keys vars)); [discriminate|].
  destruct (existsb _ coords); [discriminate|].
  destruct (Xr.calculate_dimensions _ _ _); [|discriminate].
  now intros [= <-].
Qed.



Lemma variables_lead (dimsf : string -> list string) (cols : Dict.t Column) :
  (forall c, head (dimsf c) = Some "APS_ID") ->
  Forall (leads_with "APS_ID")
         (map (fun kv => (fst kv, variable_of (dimsf (fst kv)) (snd kv))) cols).
Proof.
  intros H. apply Forall_map. apply Forall_forall. intros kv _. apply H.
Qed.

(** The loop of [galaxy_table]. *)
Lemma galaxy_fold_raise (l : list (nat * (string * Column))) (e : exn) :
  fold_left galaxy_table_step l (Raise e) = Raise e.
Proof. induction l as [|ic l IH]; simpl; [reflexivity | exact IH]. Qed.

Lemma galaxy_fold_inv (P : string * Xr.DataArray -> Prop)
    (l : list (nat * (string * Column))) :
  forall out out' : Dict.t Xr.DataArray,
    (forall i c col v, In (i, (c, col)) l ->
       variable (galaxy_table_dims c) col = Ok v -> P (galaxy_table_name i c, v)) ->
    Forall P out ->
    fold_left galaxy_table_step l (Ok out) = Ok out' ->
    Forall P out'.
Proof.
  induction l as [|[i [c col]] l IH]; intros out out' Hl Hout; cbn [fold_left].
  - now intros [= <-].
  - unfold galaxy_table_step at 2. cbn [rbind fst snd].
    destruct (variable (galaxy_table_dims c) col) as [v|e] eqn:Ev; cbn [rbind].
    2:{ rewrite galaxy_fold_raise. discriminate. }
    apply IH; [intros i' c' col' v' Hin; apply Hl; now right|].
    apply Forall_set; [|exact Hout].
    apply (Hl i c col v); [now left | exact Ev].
Qed.

(** The readers by their common shapes. *)
Lemma class_table_shape (ar : Np.arith) :
  class_table ar = promoting_reader ar is_czz (fun c => c) class_table_dims.
Proof. reflexivity. Qed.

Lemma class_spec_shape (ar : Np.arith) :
  class_spec ar
  = promoting_reader ar (fun c => Str.startswith c "LAMBDA")
                     (fun c => "LAMBDA_" +:+ band_of c) class_spec_dims.
Proof. reflexivity. Qed.

Lemma star_table_shape : star_table = plain_reader covar_coords star_table_dims.
Proof. reflexivity. Qed.

Lemma star_spec_shape : star_spec = plain_reader (fun coords => coords) star_spec_dims.
Proof. reflexivity. Qed.

Lemma galaxy_spec_shape : galaxy_spec = plain_reader (fun coords => coords) galaxy_spec_dims.
Proof. reflexivity. Qed.

(** What a reader that has returned went through. *)
Lemma promoting_reader_ok (ar : Np.arith) (sel : string -> bool) (cname : string -> string)
    (dimsf : string -> list string) (dat : table) (ds : Xr.Dataset) :
  promoting_reader ar sel cname dimsf dat = Ok ds ->
  exists cols coords cols' coords',
    columns dat = Ok (cols, coords)
    /\ fold_left (promote_step ar sel cname) (Dict.keys cols) (Ok (cols, coords))
       = Ok (cols', coords')
    /\ ds = Xr.mk_Dataset
              (map (fun kv => (fst kv, variable_of (dimsf (fst kv)) (snd kv))) cols')
              coords'.
Proof.
  unfold promoting_reader, rbind.
  destruct (columns dat) as [[cols coords]|]; [|discriminate]. cbn [fst snd].
  destruct (fold_left _ _ _) as [[cols' coords']|] eqn:Ef; [|discriminate]. cbn [fst snd].
  destruct (variables dimsf cols') as [vs|] eqn:Ev; [|discriminate].
  intros H. exists cols, coords, cols', coords'.
  rewrite (Dataset_init_ok _ _ _ H), (variables_ok _ _ _ Ev). auto.
Qed.

Lemma plain_reader_ok (coordsf : Dict.t Xr.coord -> Dict.t Xr.coord)
    (dimsf : string -> list string) (dat : table) (ds : Xr.Dataset) :
  plain_reader coordsf dimsf dat = Ok ds ->
  exists cols coords,
    columns dat = Ok (cols, coords)
    /\ ds = Xr.mk_Dataset
              (map (fun kv => (fst kv, variable_of (dimsf (fst kv)) (snd kv))) cols)
              (coordsf coords).
Proof.
  unfold plain_reader, rbind.
  destruct (columns dat) as [[cols coords]|]; [|discriminate]. cbn [fst snd].
  destruct (variables dimsf cols) as [vs|] eqn:Ev; [|discriminate].
  intros H. exists cols, coords.
  rewrite (Dataset_init_ok _ _ _ H), (variables_ok _ _ _ Ev). auto.
Qed.

Lemma galaxy_table_ok (dat : table) (ds : Xr.Dataset) :
  galaxy_table dat = Ok ds ->
  exists cols coords out,
    columns dat = Ok (cols, coords)
    /\ fold_left galaxy_table_step (combine (seq 0 (length cols)) cols) (Ok []) = Ok out
    /\ ds = Xr.mk_Dataset out coords.
Proof.
  unfold galaxy_table, rbind.
  destruct (columns dat) as [[cols coords]|]; [|discriminate]. cbn [fst snd].
  destruct (fold_left _ _ _) as [out|] eqn:Ef; [|discriminate].
  intros H. exists cols, coords, out. rewrite (Dataset_init_ok _ _ _ H). auto.
Qed.

(** Every data variable leads with "APS_ID". *)
Lemma promoting_reader_leads (ar : Np.arith) (sel : string -> bool)
    (cname : string -> string) (dimsf : string -> list string)
    (dat : table) (ds : Xr.Dataset) :
  (forall c, head (dimsf c) = Some "APS_ID") ->
  promoting_reader ar sel cname dimsf dat = Ok ds ->
  Forall (leads_with "APS_ID") (Xr.data_vars ds).
Proof.
  intros Hd (cols & coords & cols' & coords' & _ & _ & ->)%promoting_reader_ok.
  now apply variables_lead.
Qed.

Lemma plain_reader_leads (coordsf : Dict.t Xr.coord -> Dict.t Xr.coord)
    (dimsf : string -> list string) (dat : table) (ds : Xr.Dataset) :
  (forall c, head (dimsf c) = Some "APS_ID") ->
  plain_reader coordsf dimsf dat = Ok ds ->
  Forall (leads_with "APS_ID") (Xr.data_vars ds).
Proof.
  intros Hd (cols & coords & _ & ->)%plain_reader_ok. now apply variables_lead.
Qed.

Lemma galaxy_table_leads (dat : table) (ds : Xr.Dataset) :
  galaxy_table dat = Ok ds -> Forall (leads_with "APS_ID") (Xr.data_vars ds).
Proof.
  intros (cols & coords & out & _ & Hf & ->)%galaxy_table_ok.
  apply (galaxy_fold_inv (leads_with "APS_ID")
           (combine (seq 0 (length cols)) cols) [] out); [|constructor | exact Hf].
  now intros i c col v _ [-> _]%variable_ok.
Qed.

(** Every data variable has a name for every axis. *)
Lemma variables_axes (dimsf : string -> list string) (cols : Dict.t Column) :
  forall vs, variables dimsf cols = Ok vs -> Forall axes_match vs.
Proof.
  induction cols as [|[c col] cols IH]; intros vs; cbn [variables].
  - intros [= <-]. constructor.
  - unfold rbind. destruct (variable (dimsf c) col) as [v|] eqn:Ev; [|discriminate].
    destruct (variables dimsf cols) as [vs'|]; [|discriminate].
    intros [= <-]. constructor; [|now apply IH].
    destruct (variable_ok _ _ _ Ev) as [-> Hn]. exact Hn.
Qed.

Lemma promoting_reader_axes (ar : Np.arith) (sel : string -> bool)
    (cname : string -> string) (dimsf : string -> list string)
    (dat : table) (ds : Xr.Dataset) :
  promoting_reader ar sel cname dimsf dat = Ok ds -> Forall axes_match (Xr.data_vars ds).
Proof.
  unfold promoting_reader, rbind.
  destruct (columns dat) as [[cols coords]|]; [|discriminate]. cbn [fst snd].
  destruct (fold_left _ _ _) as [[cols' coords']|]; [|discriminate]. cbn [fst snd].
  destruct (variables dimsf cols') as [vs|] eqn:Ev; [|discriminate].
  intros ->%Dataset_init_ok. exact (variables_axes _ _ _ Ev).
Qed.

Lemma plain_reader_axes (coordsf : Dict.t Xr.coord -> Dict.t Xr.coord)
    (dimsf : string -> list string) (dat : table) (ds : Xr.Dataset) :
  plain_reader coordsf dimsf dat = Ok ds -> Forall axes_match (Xr.data_vars ds).
Proof.
  unfold plain_reader, rbind.
  destruct (columns dat) as [[cols coords]|]; [|discriminate]. cbn [fst snd].
  destruct (variables dimsf cols) as [vs|] eqn:Ev; [|discriminate].
  intros ->%Dataset_init_ok. exact (variables_axes _ _ _ Ev).
Qed.

Lemma galaxy_table_axes (dat : table) (ds : Xr.Dataset) :
  galaxy_table dat = Ok ds -> Forall axes_match (Xr.data_vars ds).
Proof.
  intros (cols & coords & out & _ & Hf & ->)%galaxy_table_ok.
  apply (galaxy_fold_inv axes_match
           (combine (seq 0 (length cols)) cols) [] out); [|constructor | exact Hf].
  intros i c col v _ [-> Hn]%variable_ok. exact Hn.
Qed.

End ReaderFacts.

(** C9: for each of the six read functions and every file on which it
    returns a dataset, every data variable of that dataset has "APS_ID" as
    the first of its dimensions. (The cached copy that [single_via_netcdf]
    writes has "filename" before it, see [written_dataset_filename].) *)
Theorem readers_lead_with_APS_ID (ar : Np.arith)
    (Table_read : string -> string -> result table)
    (name : string) (f : string -> result Xr.Dataset) (fn : string)
    (ds : Xr.Dataset) :
  In (name, f) (readers ar Table_read) ->
  f fn = Ok ds ->
  Forall (leads_with "APS_ID") (Xr.data_vars ds).
Proof.
  intros Hin Hf. unfold readers in Hin. cbn [In] in Hin.
  destruct Hin as [H|[H|[H|[H|[H|[H|[]]]]]]]; injection H as _ <-.
  - unfold read_class_table, rbind in Hf.
    destruct (Table_read fn _) as [t|]; [|discriminate].
    rewrite ReaderFacts.class_table_shape in Hf.
    exact (ReaderFacts.promoting_reader_leads _ _ _ class_table_dims t ds
             (fun _ => eq_refl) Hf).
  - unfold read_star_table, rbind in Hf.
    destruct (Table_read fn _) as [t|]; [|discriminate].
    exact (ReaderFacts.plain_reader_leads covar_coords star_table_dims t ds
             (fun _ => eq_refl) Hf).
  - unfold read_galaxy_table, rbind in Hf.
    destruct (Table_read fn _) as [t|]; [|discriminate].
    now apply (ReaderFacts.galaxy_table_leads t).
  - unfold read_class_spec, rbind in Hf.
    destruct (Table_read fn _) as [t|]; [|discriminate].
    rewrite ReaderFacts.class_spec_shape in Hf.
    exact (ReaderFacts.promoting_reader_leads _ _ _ class_spec_dims t ds
             (fun _ => eq_refl) Hf).
  - unfold read_star_spec, rbind in Hf.
    destruct (Table_read fn _) as [t|]; [|discriminate].
    exact (ReaderFacts.plain_reader_leads (fun c => c) star_spec_dims t ds
             (fun _ => eq_refl) Hf).
  - unfold read_galaxy_spec, rbind in Hf.
    destruct (Table_read fn _) as [t|]; [|discriminate].
    exact (ReaderFacts.plain_reader_leads (fun c => c) galaxy_spec_dims t ds
             (fun _ => eq_refl) Hf).
Qed.

Lemma readers_lead_with_APS_ID_witness :
  exists ds v,
    read_star_spec Demo.Table_read "/data/L2/20230101/stack_1.fits" = Ok ds
    /\ Xr.data_vars ds = [("FLUX_B", v)]
    /\ Xr.dims v = ["APS_ID"; "LAMBIN_B"]
    /\ Np.shape (Xr.values v) = [2%nat; 2%nat]
    /\ Forall (leads_with "APS_ID") (Xr.data_vars ds).
Proof.
  do 2 eexists. split; [vm_compute; reflexivity|].
  split; [reflexivity|]. split; [reflexivity|]. split; [reflexivity|].
  apply (readers_lead_with_APS_ID Demo.arith Demo.Table_read
           "read_star_spec" (read_star_spec Demo.Table_read)
           "/data/L2/20230101/stack_1.fits").
  - unfold readers. cbn [In]. auto 10.
  - vm_compute. reflexivity.
Defined.

(** * Byte order *)
Module ByteOrderFacts.

(** [newbyteorder().byteswap()] keeps what the elements mean and turns
    the byte order of the dtype over. *)
Lemma swap_order_spec (c : Column) :
  Np.logical (arr (swap_order c)) = Np.logical (arr c)
  /\ Np.order (arr (swap_order c))
     = match Np.order (arr c) with
       | Np.Native => Np.NonNative
       | Np.NonNative => Np.Native
       | Np.NotApplicable => Np.NotApplicable
       end.
Proof.
  destruct c as [[o w rows] u]. unfold swap_order, Np.logical.
  cbn [arr Np.order Np.rows Np.newbyteorder Np.byteswap].
  destruct o; cbn [Np.logical_item]; (split; [|reflexivity]);
    rewrite ?List.map_map; apply List.map_ext; intros row;
    rewrite ?List.map_map; apply List.map_ext; intros x;
    cbn [Np.logical_item]; rewrite ?rev_involutive; reflexivity.
Qed.

End ByteOrderFacts.

(** C7 does not hold of the code. The readers swap the byte order of
    every column whatever it was: a column that arrives in the platform's
    own order leaves with the other order (its values are kept). Here
    [read_star_spec] on a table whose columns are native. *)
Lemma native_column_becomes_foreign :
  exists ds v,
    star_spec Demo.native_stack = Ok ds
    /\ Dict.get "FLUX_B" (Dict.of_list Demo.native_stack)
       = Some {| arr := Np.mk_ndarray Np.Native [2%nat]
                          [[[Byte.x2c; Byte.x01]; [Byte.x07; Byte.x00]];
                           [[Byte.x2d; Byte.x01]; [Byte.x09; Byte.x00]]];
                 col_unit := Some "count" |}
    /\ Dict.get "FLUX_B" (Xr.data_vars ds) = Some v
    /\ Np.order (Xr.values v) = Np.NonNative
    /\ Np.logical (Xr.values v)
       = [[[Byte.x2c; Byte.x01]; [Byte.x07; Byte.x00]];
          [[Byte.x2d; Byte.x01]; [Byte.x09; Byte.x00]]].
Proof. do 2 eexists. vm_compute. repeat split. Qed.

(** * Promotion of shared coordinates *)
Module PromotionFacts.
Import DictFacts PromoteFacts ReaderFacts.

Lemma mem_true (k : string) (ks : list string) :
  In k ks -> existsb (String.eqb k) ks = true.
Proof.
  intros H. apply existsb_exists. exists k. split; [exact H | apply String.eqb_refl].
Qed.









Section Means.
Variable ar : Np.arith.








End Means.

Section Shape.
Variable ar : Np.arith.
Variable sel : string -> bool.
Variable cname : string -> string.
Variable dimsf : string -> list string.
Hypothesis sel_APS_ID : sel "APS_ID" = false.




End Shape.

End PromotionFacts.



(** * File discovery *)
Module DiscoveryFacts.

Lemma select_filter (keep : string -> result bool) (files r : list string) :
  select keep files = Ok r -> r = List.filter (kept keep) files.
Proof.
  revert r. induction files as [|fn files IH]; intros r; cbn [select List.filter].
  - now intros [= <-].
  - unfold rbind, kept. destruct (keep fn) as [b|e]; [|discriminate].
    destruct (select keep files) as [rest|e]; [|discriminate].
    intros [= <-]. rewrite (IH rest eq_refl). now destruct b.
Qed.

Lemma select_returns (keep : string -> result bool) (files : list string) :
  (exists r, select keep files = Ok r)
  <-> (forall fn, In fn files -> exists b, keep fn = Ok b).
Proof.
  induction files as [|fn files IH]; cbn [select].
  - split; [intros _ ? [] | eauto].
  - unfold rbind. split.
    + intros [r Hr] fn' [<-|Hin].
      * destruct (keep fn) as [b|e]; [eauto | discriminate].
      * destruct (keep fn) as [b|e]; [|discriminate].
        destruct (select keep files) as [rest|e]; [|discriminate].
        apply (proj1 IH); eauto.
    + intros H. destruct (H fn (or_introl eq_refl)) as [b ->].
      destruct (proj2 IH) as [rest ->]; [|eauto].
      intros fn' Hin. apply H. now right.
Qed.

Lemma StronglySorted_filter {A} (R : A -> A -> Prop) (f : A -> bool) (l : list A) :
  StronglySorted R l -> StronglySorted R (List.filter f l).
Proof.
  induction 1 as [|x l Hl IH Hx]; cbn [List.filter]; [constructor|].
  destruct (f x); [|exact IH]. constructor; [exact IH|].
  apply List.Forall_forall. intros y [Hy _]%List.filter_In.
  now apply (proj1 (List.Forall_forall _ _) Hx).
Qed.

Lemma filter_split {A} (f g : A -> bool) (l : list A) :
  (forall x, In x l -> g x = negb (f x)) ->
  Permutation (List.filter f l ++ List.filter g l) l.
Proof.
  induction l as [|x l IH]; intros H; cbn [List.filter]; [constructor|].
  rewrite (H x (or_introl eq_refl)).
  assert (IH' := IH (fun y Hy => H y (or_intror Hy))).
  destruct (f x); cbn [negb app].
  - now constructor.
  - apply Permutation_sym, Permutation_cons_app, Permutation_sym, IH'.
Qed.

Section Facts.
Variable glob : string -> list string.
Variable getheader : string -> result (Dict.t string).
Variable environ : gmap string string.

Lemma kept_highres (fn : string) :
  kept (fun fn => rbind (_is_lowres getheader fn) (fun b => Ok (negb b))) fn
  = match _is_lowres getheader fn with
    | Ok b => negb b
    | Raise _ => false
    end.
Proof.
  unfold kept, rbind. destruct (_is_lowres getheader fn) as [[|]|]; reflexivity.
Qed.

(** What a call that returns has found. *)
Lemma get_weave_files_ok (level filetype date runid : string) (lowres : bool)
    (files : list string) :
  get_weave_files glob getheader environ level filetype date runid lowres = Ok files ->
  exists root,
    environ !! "WEAVEIO_ROOTDIR" = Some root
    /\ (forall fn, In fn (glob (weave_pattern root level filetype date runid)) ->
                   exists b, _is_lowres getheader fn = Ok b)
    /\ files
       = List.filter (fun fn => match _is_lowres getheader fn with
                                | Ok b => Bool.eqb b lowres
                                | Raise _ => false
                                end)
                     (merge_sort String.le
                        (glob (weave_pattern root level filetype date runid))).
Proof.
  unfold get_weave_files.
  destruct (environ !! "WEAVEIO_ROOTDIR") as [root|]; [|discriminate].
  intros H. exists root. split; [reflexivity|].
  set (sorted := merge_sort String.le _) in *.
  assert (Hin : forall fn, In fn (glob (weave_pattern root level filetype date runid))
                           -> In fn sorted).
  { intros fn Hfn. apply list_elem_of_In. unfold sorted.
    rewrite (merge_sort_Permutation String.le). now apply list_elem_of_In. }
  destruct lowres.
  - split.
    + intros fn Hfn. apply (proj1 (select_returns _ sorted)); eauto.
    + rewrite (select_filter _ _ _ H). apply List.filter_ext. intros fn.
      unfold kept. destruct (_is_lowres getheader fn) as [[|]|]; reflexivity.
  - split.
    + intros fn Hfn.
      destruct (proj1 (select_returns _ sorted) (ex_intro _ files H) fn (Hin fn Hfn))
        as [b Hb].
      unfold rbind in Hb. destruct (_is_lowres getheader fn) as [b'|]; [eauto | discriminate].
    + rewrite (select_filter _ _ _ H). apply List.filter_ext. intros fn.
      rewrite kept_highres. destruct (_is_lowres getheader fn) as [[|]|]; reflexivity.
Qed.

End Facts.

Lemma found (glob : string -> list string)
    (getheader : string -> result (Dict.t string)) (environ : gmap string string)
    (level filetype date runid : string) (lowres : bool) (files : list string) :
  get_weave_files glob getheader environ level filetype date runid lowres = Ok files ->
  exists root,
    environ !! "WEAVEIO_ROOTDIR" = Some root
    /\ StronglySorted String.le files
    /\ forall fn,
         In fn files
         <-> In fn (glob (weave_pattern root level filetype date runid))
             /\ _is_lowres getheader fn = Ok lowres.
Proof.
  intros H.
  destruct (get_weave_files_ok _ _ _ _ _ _ _ _ _ H)
    as (root & Hroot & Hall & ->).
  exists root. split; [exact Hroot|]. split.
  - apply StronglySorted_filter.
    apply (StronglySorted_merge_sort String.le).
  - intros fn. rewrite List.filter_In.
    assert (Hp : In fn (merge_sort String.le
                          (glob (weave_pattern root level filetype date runid)))
                 <-> In fn (glob (weave_pattern root level filetype date runid))).
    { rewrite <- !list_elem_of_In. now rewrite (merge_sort_Permutation String.le). }
    rewrite Hp.
    destruct (_is_lowres getheader fn) as [b|e].
    + destruct b, lowres; cbn; intuition congruence.
    + intuition congruence.
Qed.


End DiscoveryFacts.

(** X1: the files [get_weave_files] returns are in ascending order, and
    they are exactly the files matching the pattern under
    "WEAVEIO_ROOTDIR" whose header has the resolution asked for. *)
Theorem get_weave_files_sound (glob : string -> list string)
    (getheader : string -> result (Dict.t string)) (environ : gmap string string)
    (level filetype date runid : string) (lowres : bool) (files : list string) :
  get_weave_files glob getheader environ level filetype date runid lowres = Ok files ->
  exists root,
    environ !! "WEAVEIO_ROOTDIR" = Some root
    /\ StronglySorted String.le files
    /\ forall fn,
         In fn files
         <-> In fn (glob (weave_pattern root level filetype date runid))
             /\ _is_lowres getheader fn = Ok lowres.
Proof. apply DiscoveryFacts.found. Qed.

Lemma get_weave_files_sound_witness :
  exists root,
    DemoFiles.environ !! "WEAVEIO_ROOTDIR" = Some root
    /\ StronglySorted String.le
         ["/weave/L2/20230101/stack_1.fits"; "/weave/L2/20230102/stack_3.fits"]
    /\ forall fn,
         In fn ["/weave/L2/20230101/stack_1.fits"; "/weave/L2/20230102/stack_3.fits"]
         <-> In fn (DemoFiles.glob (weave_pattern root "L2" "stack" "*" "*"))
             /\ _is_lowres DemoFiles.getheader fn = Ok true.
Proof.
  apply (get_weave_files_sound DemoFiles.glob DemoFiles.getheader DemoFiles.environ
           "L2" "stack" "*" "*" true).
  vm_compute. reflexivity.
Defined.


(** X3: the low-resolution and the high-resolution selections of one
    pattern together are the matching files, each once. *)
Theorem get_weave_files_partition (glob : string -> list string)
    (getheader : string -> result (Dict.t string)) (environ : gmap string string)
    (level filetype date runid : string) (low high : list string) :
  get_weave_files glob getheader environ level filetype date runid true = Ok low ->
  get_weave_files glob getheader environ level filetype date runid false = Ok high ->
  exists root,
    environ !! "WEAVEIO_ROOTDIR" = Some root
    /\ Permutation (low ++ high) (glob (weave_pattern root level filetype date runid)).
Proof.
  intros Hl Hh.
  destruct (DiscoveryFacts.get_weave_files_ok _ _ _ _ _ _ _ _ _ Hl)
    as (root & Hroot & Hall & ->).
  destruct (DiscoveryFacts.get_weave_files_ok _ _ _ _ _ _ _ _ _ Hh)
    as (root' & Hroot' & _ & ->).
  rewrite Hroot in Hroot'. injection Hroot' as <-.
  exists root. split; [exact Hroot|].
  etransitivity; [|apply (merge_sort_Permutation String.le)].
  apply DiscoveryFacts.filter_split. intros fn Hfn.
  destruct (Hall fn) as [b ->]; [|now destruct b].
  apply list_elem_of_In. rewrite <- (merge_sort_Permutation String.le).
  now apply list_elem_of_In.
Qed.

Lemma get_weave_files_partition_witness :
  exists root,
    DemoFiles.environ !! "WEAVEIO_ROOTDIR" = Some root
    /\ Permutation
         (["/weave/L2/20230101/stack_1.fits"; "/weave/L2/20230102/stack_3.fits"]
            ++ ["/weave/L2/20230101/stack_2.fits"])
         (DemoFiles.glob (weave_pattern root "L2" "stack" "*" "*")).
Proof.
  apply (get_weave_files_partition DemoFiles.glob DemoFiles.getheader
           DemoFiles.environ "L2" "stack" "*" "*");
    vm_compute; reflexivity.
Defined.

(** * What the cache keeps *)
Module CacheFrame.
Import Cache.

Lemma mkdirs_keeps (ps : list string) :
  forall (w w' : world) (r : result unit),
    mkdirs ps w = (r, w') ->
    forall q n, fs w !! q = Some n -> fs w' !! q = Some n.
Proof.
  induction ps as [|p ps IH]; intros w w' r H q n Hq.
  - injection H as _ <-. exact Hq.
  - cbn [mkdirs] in H. destruct (fs w !! p) as [[|c]|] eqn:Ep.
    + now apply (IH _ _ _ H).
    + injection H as _ <-. exact Hq.
    + unfold bind, put, emit in H. apply (IH _ _ _ H). cbn [fs logged].
      rewrite lookup_insert_ne; [exact Hq | congruence].
Qed.

Lemma makedirs_keeps (d : string) (w w' : world) (r : result unit) :
  makedirs d w = (r, w') ->
  forall q n, fs w !! q = Some n -> fs w' !! q = Some n.
Proof.
  unfold makedirs. destruct (String.eqb d "").
  - intros [= _ <-]. auto.
  - apply mkdirs_keeps.
Qed.

Lemma to_netcdf_others (ds : Xr.Dataset) (p : string) (w w' : world) (r : result unit) :
  to_netcdf ds p w = (r, w') -> forall q, q <> p -> fs w' !! q = fs w !! q.
Proof.
  unfold to_netcdf, bind, put, emit. intros H q Hq.
  assert (Hput : forall n : node, <[p := n]> (fs w) !! q = fs w !! q)
    by (intros n; apply lookup_insert_ne; congruence).
  destruct (fs w !! p) as [[|c]|]; cbn [capacity logged] in H;
    try (injection H as _ <-; reflexivity);
    destruct (capacity w); injection H as _ <-; cbn [fs logged];
    rewrite ?lookup_insert_ne by congruence; auto.
Qed.

Section Store.
Variable store : string.
Variable r : read_function.

Lemma single_keeps (fn : string) (w w' : world) (res : result string) :
  single_via_netcdf store r fn w = (res, w') ->
  forall q n, fs w !! q = Some n -> fs w' !! q = Some n.
Proof.
  intros H q n Hq.
  destruct (fs w !! fn_netcdf store (__name__ r) fn) as [n0|] eqn:E.
  - rewrite CacheFacts.single_present in H by (rewrite E; eauto).
    injection H as _ <-. exact Hq.
  - rewrite (CacheFacts.single_absent _ _ _ _ E) in H.
    destruct (call r fn) as [ds0|e]; [|injection H as _ <-; exact Hq].
    destruct (Xr.expand_dims _ _ ds0) as [ds|e]; [|injection H as _ <-; exact Hq].
    destruct (makedirs _ _) as [[u|e] w1] eqn:Em.
    2:{ injection H as _ <-. apply (makedirs_keeps _ _ _ _ Em). exact Hq. }
    assert (Hq1 : fs w1 !! q = Some n) by (apply (makedirs_keeps _ _ _ _ Em); exact Hq).
    assert (Hne : q <> fn_netcdf store (__name__ r) fn) by congruence.
    destruct (to_netcdf _ _ w1) as [[u'|e] w2] eqn:Ew; injection H as _ <-;
      now rewrite (to_netcdf_others _ _ _ _ _ Ew q Hne).
Qed.

Lemma mapM_keeps (fns : list string) :
  forall (w w' : world) (res : result (list string)),
    mapM (single_via_netcdf store r) fns w = (res, w') ->
    forall q n, fs w !! q = Some n -> fs w' !! q = Some n.
Proof.
  induction fns as [|fn fns IH]; intros w w' res H q n Hq.
  - injection H as _ <-. exact Hq.
  - cbn [mapM] in H. unfold bind in H.
    destruct (single_via_netcdf store r fn w) as [[p|e] w1] eqn:E1.
    + assert (Hq1 := single_keeps _ _ _ _ E1 q n Hq).
      destruct (mapM _ fns w1) as [[ps|e] w2] eqn:E2.
      * injection H as _ <-. now apply (IH _ _ _ E2).
      * injection H as _ <-. now apply (IH _ _ _ E2).
    + injection H as _ <-. now apply (single_keeps _ _ _ _ E1).
Qed.

(** The paths of a comprehension that came to its end, and that they are
    all there. *)
Lemma mapM_ok (fns : list string) :
  forall (w w' : world) (ps : list string),
    mapM (single_via_netcdf store r) fns w = (Ok ps, w') ->
    ps = map (fn_netcdf store (__name__ r)) fns
    /\ forall fn, In fn fns -> is_Some (fs w' !! fn_netcdf store (__name__ r) fn).
Proof.
  induction fns as [|fn fns IH]; intros w w' ps H.
  - injection H as <- <-. split; [reflexivity | intros ? []].
  - cbn [mapM] in H. unfold bind in H.
    destruct (single_via_netcdf store r fn w) as [[p|e] w1] eqn:E1; [|discriminate].
    destruct (mapM _ fns w1) as [[ps'|e] w2] eqn:E2; [|discriminate].
    injection H as <- <-.
    destruct (CacheFacts.single_ok_present _ _ _ _ _ _ E1) as [-> [n Hn]].
    destruct (IH _ _ _ E2) as [-> Hall].
    split; [reflexivity|].
    intros fn' [<-|Hin]; [|auto].
    exists n. apply (mapM_keeps _ _ _ _ E2). exact Hn.
Qed.

Lemma mapM_present (fns : list string) (w : world) :
  (forall fn, In fn fns -> is_Some (fs w !! fn_netcdf store (__name__ r) fn)) ->
  mapM (single_via_netcdf store r) fns w
  = (Ok (map (fn_netcdf store (__name__ r)) fns), w).
Proof.
  induction fns as [|fn fns IH]; intros H; [reflexivity|].
  cbn [mapM map]. unfold bind.
  rewrite CacheFacts.single_present by (apply H; now left).
  rewrite IH by (intros fn' Hin; apply H; now right). reflexivity.
Qed.

End Store.

(** [open_mfdataset] reads: it leaves the file system as it is, and what
    it returns depends on the file system only. *)
Lemma open_each (ps : list string) :
  forall w : world,
    exists res,
      mapM (fun p w => match fs w !! p with
                       | Some (File (Some ds)) => (Ok ds, w)
                       | _ => (Raise (OSError "cannot open"), w)
                       end) ps w = (res, w)
      /\ (forall dss, res = Ok dss ->
            Forall2 (fun p ds => fs w !! p = Some (File (Some ds))) ps dss)
      /\ (forall w2, fs w2 = fs w ->
            mapM (fun p w => match fs w !! p with
                             | Some (File (Some ds)) => (Ok ds, w)
                             | _ => (Raise (OSError "cannot open"), w)
                             end) ps w2 = (res, w2))
      /\ (forall p, In p ps ->
            (forall ds, fs w !! p <> Some (File (Some ds))) -> exists e, res = Raise e).
Proof.
  induction ps as [|p ps IH]; intros w.
  - exists (Ok []). repeat split.
    + intros dss [= <-]. constructor.
    + intros p [].
  - destruct (IH w) as (res & Hres & Hall & Hsame & Hbad).
    cbn [mapM]. unfold bind.
    destruct (fs w !! p) as [[|[ds|]]|] eqn:Ep.
    1,3,4: exists (Raise (OSError "cannot open")); repeat split;
      [ discriminate
      | intros w2 ->; rewrite Ep; reflexivity
      | eauto ].
    rewrite Hres. destruct res as [dss|e].
    + exists (Ok (ds :: dss)). unfold ret. repeat split.
      * intros dss' [= <-]. constructor; [exact Ep | now apply Hall].
      * intros w2 Hw2. rewrite Hw2, Ep, (Hsame w2 Hw2). reflexivity.
      * intros p' [<-|Hin] Hn; [now destruct (Hn ds)|].
        destruct (Hbad p' Hin Hn) as [e He]. discriminate.
    + exists (Raise e). repeat split.
      * discriminate.
      * intros w2 Hw2. rewrite Hw2, Ep, (Hsame w2 Hw2). reflexivity.
      * eauto.
Qed.

Lemma open_files (ps : list string) (w : world) :
  exists res,
    open_mfdataset ps w = (res, logged (EvOpen ps) w)
    /\ (forall dss, res = Ok dss ->
          Forall2 (fun p ds => fs w !! p = Some (File (Some ds))) ps dss)
    /\ (forall w2, fs w2 = fs w ->
          open_mfdataset ps w2 = (res, logged (EvOpen ps) w2))
    /\ (forall p, In p ps ->
          (forall ds, fs w !! p <> Some (File (Some ds))) -> exists e, res = Raise e).
Proof.
  unfold open_mfdataset, bind, emit. destruct ps as [|p ps].
  - exists (Raise (OSError "no files to open")). repeat split.
    + discriminate.
    + intros p [].
  - destruct (open_each (p :: ps) (logged (EvOpen (p :: ps)) w))
      as (res & Hres & Hall & Hsame & Hbad).
    exists res. repeat split.
    + exact Hres.
    + exact Hall.
    + intros w2 Hw2. apply Hsame. cbn [fs logged]. exact Hw2.
    + exact Hbad.
Qed.


End CacheFrame.



(** X7: when the wrapper has returned, a second call on the same file
    names returns the same datasets, and all it does is open the files:
    no read function is called, nothing is made or written. *)
Theorem netcdf_wrapper_warm (store : string) (r : Cache.read_function)
    (fns : list string) (w w' : Cache.world) (dss : list Xr.Dataset) :
  Cache.netcdf_wrapper store r fns w = (Ok dss, w') ->
  Cache.netcdf_wrapper store r fns w'
  = (Ok dss,
     Cache.logged (Cache.EvOpen (map (Cache.fn_netcdf store (Cache.__name__ r)) fns)) w').
Proof.
  unfold Cache.netcdf_wrapper, Cache.bind. intros H.
  destruct (Cache.mapM _ fns w) as [[ps|e] w1] eqn:Em; [|discriminate].
  destruct (CacheFrame.mapM_ok _ _ _ _ _ _ Em) as [-> Hpresent].
  set (ps := map (Cache.fn_netcdf store (Cache.__name__ r)) fns) in *.
  destruct (CacheFrame.open_files ps w1) as (res' & Hres & _ & Hsame & _).
  rewrite Hres in H. injection H as -> <-.
  rewrite CacheFrame.mapM_present by exact Hpresent.
  fold ps. now rewrite (Hsame (Cache.logged (Cache.EvOpen ps) w1)).
Qed.

Lemma netcdf_wrapper_warm_witness :
  exists dss w',
    Cache.netcdf_wrapper "/store" Demo.reader ["/data/L2/20230101/stack_1.fits"]
                         (Demo.disk 1) = (Ok dss, w')
    /\ Cache.netcdf_wrapper "/store" Demo.reader ["/data/L2/20230101/stack_1.fits"] w'
       = (Ok dss,
          Cache.logged (Cache.EvOpen ["/store/L2/20230101/stack_1_star_spec.nc"]) w').
Proof.
  destruct (Cache.netcdf_wrapper "/store" Demo.reader ["/data/L2/20230101/stack_1.fits"]
              (Demo.disk 1)) as [[dss|e] w'] eqn:E; [|vm_compute in E; discriminate E].
  exists dss, w'. split; [reflexivity|].
  exact (netcdf_wrapper_warm "/store" Demo.reader _ _ _ _ E).
Defined.



(** * The data variables of the readers *)
Module VariableFacts.
Import DictFacts PromoteFacts ReaderFacts.

Lemma In_get {V} (k : string) (v : V) (d : Dict.t V) :
  List.NoDup (Dict.keys d) -> In (k, v) d -> Dict.get k d = Some v.
Proof.
  induction d as [|[k' v'] d IH]; cbn [Dict.keys map fst Dict.get In]; [tauto|].
  intros [Hk Hd]%List.NoDup_cons_iff [[= -> ->]|Hin].
  - now rewrite String.eqb_refl.
  - destruct (String.eqb_spec k' k) as [->|Hne]; [|now apply IH].
    exfalso. apply Hk. change k with (fst (k, v)). now apply in_map.
Qed.

Lemma In_remove {V} (c : string) (kv : string * V) (d : Dict.t V) :
  In kv (Dict.remove c d) -> In kv d.
Proof.
  induction d as [|[k' v'] d IH]; cbn [Dict.remove In]; [tauto|].
  destruct (String.eqb k' c); cbn [In]; tauto.
Qed.

Lemma In_set {V} (c : string) (x : V) (k : string) (v : V) (d : Dict.t V) :
  In (k, v) (Dict.set c x d) -> (k = c /\ v = x) \/ In (k, v) d.
Proof.
  induction d as [|[k' v'] d IH]; cbn [Dict.set In].
  - intros [[= <- <-]|[]]. now left.
  - destruct (String.eqb k' c); cbn [In].
    + intros [[= <- <-]|H]; auto.
    + intros [H|H]; [auto|]. destruct (IH H); auto.
Qed.

Lemma remove_map_values {V W} (f : V -> W) (c : string) (d : Dict.t V) :
  Dict.remove c (Dict.map_values f d) = Dict.map_values f (Dict.remove c d).
Proof.
  unfold Dict.map_values. induction d as [|[k' v'] d IH]; simpl; [reflexivity|].
  destruct (String.eqb k' c); simpl; [reflexivity | now rewrite IH].
Qed.

Lemma keys_set_new {V} (c : string) (x : V) (d : Dict.t V) :
  ~ In c (Dict.keys d) -> Dict.keys (Dict.set c x d) = Dict.keys d ++ [c].
Proof.
  induction d as [|[k' v'] d IH]; cbn [Dict.keys map fst Dict.set In app]; [reflexivity|].
  intros H. destruct (String.eqb_spec k' c) as [->|Hne]; [tauto|].
  cbn [map fst]. f_equal. apply IH. tauto.
Qed.

Lemma remove_filter {V} (c : string) (d : Dict.t V) :
  List.NoDup (Dict.keys d) ->
  Dict.remove c d = List.filter (fun kv => negb (String.eqb (fst kv) c)) d.
Proof.
  induction d as [|[k' v'] d IH]; cbn [Dict.keys map fst Dict.remove List.filter];
    [reflexivity|].
  intros [Hk Hd]%List.NoDup_cons_iff.
  destruct (String.eqb_spec k' c) as [->|Hne]; cbn [negb].
  - symmetry. apply List.forallb_filter_id. apply List.forallb_forall.
    intros [k v] Hin. cbn [fst]. destruct (String.eqb_spec k c) as [->|]; [|reflexivity].
    exfalso. apply Hk. change c with (fst (c, v)). now apply in_map.
  - f_equal. now apply IH.
Qed.

Lemma keys_filter {V} (p : string -> bool) (d : Dict.t V) :
  Dict.keys (List.filter (fun kv => p (fst kv)) d) = List.filter p (Dict.keys d).
Proof.
  induction d as [|[k v] d IH]; cbn [Dict.keys map fst List.filter]; [reflexivity|].
  destruct (p k); cbn [map fst]; [f_equal|]; exact IH.
Qed.

Lemma filter_filter {A} (p q : A -> bool) (l : list A) :
  List.filter p (List.filter q l) = List.filter (fun x => q x && p x) l.
Proof.
  induction l as [|x l IH]; cbn [List.filter]; [reflexivity|].
  destruct (q x); cbn [List.filter andb]; [destruct (p x); now rewrite IH | exact IH].
Qed.

Section Loop.
Variable ar : Np.arith.
Variable sel : string -> bool.
Variable cname : string -> string.

(** The columns left by the promotion loop: those not selected. *)
Lemma promote_filter (ks : list string) :
  forall (cols : Dict.t Column) (coords : Dict.t Xr.coord)
         (cols' : Dict.t Column) (coords' : Dict.t Xr.coord),
    List.NoDup (Dict.keys cols) ->
    fold_left (promote_step ar sel cname) ks (Ok (cols, coords)) = Ok (cols', coords') ->
    cols' = List.filter
              (fun kv => negb (sel (fst kv) && existsb (String.eqb (fst kv)) ks)) cols.
Proof.
  induction ks as [|c ks IH]; intros cols coords cols' coords' Hnd Hfold.
  - cbn [fold_left] in Hfold. injection Hfold as <- _.
    symmetry. apply List.forallb_filter_id. apply List.forallb_forall.
    intros kv _. cbn [existsb]. now rewrite andb_false_r.
  - cbn [fold_left] in Hfold. destruct (sel c) eqn:Hs.
    + destruct (Dict.get c cols) as [col|] eqn:Hg.
      2:{ rewrite step_missing, fold_raise in Hfold by assumption. discriminate. }
      rewrite (step_selected ar sel cname c cols coords col Hs Hg) in Hfold.
      destruct (shared_axis ar col) as [m|e].
      2:{ rewrite fold_raise in Hfold. discriminate. }
      rewrite (IH _ _ _ _ (NoDup_remove c cols Hnd) Hfold).
      rewrite (remove_filter c cols Hnd), filter_filter.
      apply List.filter_ext. intros [k v]. cbn [fst existsb].
      destruct (String.eqb_spec k c) as [->|Hne]; cbn [negb andb orb].
      * now rewrite Hs.
      * reflexivity.
    + rewrite (step_other ar sel cname c _ Hs) in Hfold.
      rewrite (IH _ _ _ _ Hnd Hfold).
      apply List.filter_ext. intros [k v]. cbn [fst existsb].
      destruct (String.eqb_spec k c) as [->|Hne]; cbn [orb]; [|reflexivity].
      now rewrite Hs.
Qed.

Lemma promote_all (cols : Dict.t Column) (coords : Dict.t Xr.coord)
    (cols' : Dict.t Column) (coords' : Dict.t Xr.coord) :
  List.NoDup (Dict.keys cols) ->
  fold_left (promote_step ar sel cname) (Dict.keys cols) (Ok (cols, coords))
  = Ok (cols', coords') ->
  cols' = List.filter (fun kv => negb (sel (fst kv))) cols.
Proof.
  intros Hnd Hfold. rewrite (promote_filter _ _ _ _ _ Hnd Hfold).
  apply List.filter_ext_in. intros [k v] Hin. cbn [fst].
  rewrite (PromotionFacts.mem_true k (Dict.keys cols)), andb_true_r; [reflexivity|].
  change k with (fst (k, v)). now apply in_map.
Qed.
End Loop.

(** A column after the first statements of a reader is a column of the
    table, byte-swapped. *)
Lemma column_source (dat : table) (c : string) (col' : Column) :
  In (c, col') (Dict.remove "APS_ID" (Dict.map_values swap_order (Dict.of_list dat))) ->
  exists col,
    Dict.get c (Dict.of_list dat) = Some col /\ c <> "APS_ID" /\ col' = swap_order col.
Proof.
  intros Hin.
  assert (Hnd : List.NoDup (Dict.keys (Dict.map_values swap_order (Dict.of_list dat))))
    by (rewrite keys_map_values; apply NoDup_of_list).
  assert (Hg := In_get _ _ _ (NoDup_remove "APS_ID" _ Hnd) Hin).
  assert (Hne : c <> "APS_ID").
  { intros ->. rewrite get_remove_eq in Hg by exact Hnd. discriminate. }
  rewrite (get_remove_ne c "APS_ID") in Hg by congruence.
  rewrite get_map_values in Hg.
  destruct (Dict.get c (Dict.of_list dat)) as [col|]; [|discriminate].
  injection Hg as <-. eauto.
Qed.

Lemma variable_from_column (idx : bool) (dat : table) (c k : string) (col : Column)
    (dims : list string) :
  Dict.get c (Dict.of_list dat) = Some col -> c <> "APS_ID" ->
  k = c \/ (idx = true /\ not_line_col c = true /\ k = "IDX_" +:+ c) ->
  from_column idx dat (k, variable_of dims (swap_order col)).
Proof.
  intros Hg Hne Hk. exists c, col. cbn [fst snd variable_of Xr.values Xr.attrs].
  repeat split; auto. apply (proj1 (ByteOrderFacts.swap_order_spec col)).
Qed.

Lemma variables_from_columns (idx : bool) (dat : table) (dimsf : string -> list string)
    (cols : Dict.t Column) :
  (forall kv, In kv cols ->
     In kv (Dict.remove "APS_ID" (Dict.map_values swap_order (Dict.of_list dat)))) ->
  Forall (from_column idx dat)
         (map (fun kv => (fst kv, variable_of (dimsf (fst kv)) (snd kv))) cols).
Proof.
  intros Hsub. apply Forall_map. apply List.Forall_forall. intros [c col'] Hin.
  destruct (column_source dat c col' (Hsub _ Hin)) as (col & Hg & Hne & ->).
  cbn [fst snd]. apply (variable_from_column idx dat c c col); auto.
Qed.

Lemma galaxy_fold_from_columns (dat : table) (l : list (nat * (string * Column)))
    (out out' : Dict.t Xr.DataArray) :
  (forall ic, In ic l ->
     In (snd ic) (Dict.remove "APS_ID" (Dict.map_values swap_order (Dict.of_list dat)))) ->
  Forall (from_column true dat) out ->
  fold_left galaxy_table_step l (Ok out) = Ok out' ->
  Forall (from_column true dat) out'.
Proof.
  intros Hsub Hout Hf.
  apply (galaxy_fold_inv (from_column true dat) l out out'); [|exact Hout | exact Hf].
  intros i c col' v Hin [-> _]%variable_ok.
  destruct (column_source dat c col' (Hsub (i, (c, col')) Hin)) as (col & Hg & Hne & ->).
  apply (variable_from_column true dat c _ col); auto.
  unfold galaxy_table_name. destruct (100 <? i)%nat; cbn [andb]; [|auto].
  destruct (not_line_col c) eqn:E; auto.
Qed.

Lemma galaxy_fold_keys (l : Dict.t Column) :
  forall (start : nat) (out out' : Dict.t Xr.DataArray),
    (start + length l <= 101)%nat ->
    List.NoDup (Dict.keys out ++ Dict.keys l) ->
    fold_left galaxy_table_step (combine (seq start (length l)) l) (Ok out) = Ok out' ->
    Dict.keys out' = Dict.keys out ++ Dict.keys l.
Proof.
  induction l as [|[c col] l IH]; intros start out out' Hlen Hnd.
  - cbn. intros [= <-]. now rewrite app_nil_r.
  - cbn [length] in Hlen. cbn [length seq combine fold_left].
    unfold galaxy_table_step at 2. cbn [rbind fst snd].
    destruct (variable (galaxy_table_dims c) col) as [v|e]; cbn [rbind].
    2:{ rewrite galaxy_fold_raise. discriminate. }
    assert (Hstep : Dict.keys (Dict.set (galaxy_table_name start c) v out)
                    = Dict.keys out ++ [c]).
    { unfold galaxy_table_name.
      replace (100 <? start)%nat with false by (symmetry; apply Nat.ltb_ge; lia).
      cbn [andb]. apply keys_set_new.
      intros Hin. change (Dict.keys ((c, col) :: l)) with (c :: Dict.keys l) in Hnd.
      apply List.NoDup_remove_2 in Hnd. apply Hnd. apply in_or_app. now left. }
    change (Dict.keys ((c, col) :: l)) with ([c] ++ Dict.keys l) in *.
    intros Hf. apply IH in Hf; [| lia | rewrite Hstep, <- List.app_assoc; exact Hnd].
    rewrite Hf, Hstep. now rewrite <- List.app_assoc.
Qed.

End VariableFacts.

Module BodyFacts.
Import DictFacts ReaderFacts VariableFacts.

Lemma keys_variables {V W} (g : string * V -> W) (d : Dict.t V) :
  Dict.keys (map (fun kv => (fst kv, g kv)) d) = Dict.keys d.
Proof. unfold Dict.keys. rewrite List.map_map. reflexivity. Qed.

Lemma plain_body (idx : bool) (coordsf : Dict.t Xr.coord -> Dict.t Xr.coord)
    (dimsf : string -> list string) (dat : table) (ds : Xr.Dataset) :
  plain_reader coordsf dimsf dat = Ok ds ->
  Forall (from_column idx dat) (Xr.data_vars ds)
  /\ Dict.keys (Xr.data_vars ds) = Dict.keys (Dict.remove "APS_ID" (Dict.of_list dat)).
Proof.
  intros (cols & coords & Ecol & ->)%plain_reader_ok. cbn [Xr.data_vars].
  destruct (columns_ok _ _ _ Ecol) as (_ & -> & _ & _). split.
  - now apply variables_from_columns.
  - rewrite (keys_variables (fun kv => variable_of (dimsf (fst kv)) (snd kv))).
    now rewrite remove_map_values, keys_map_values.
Qed.

Lemma promoting_body (idx : bool) (ar : Np.arith) (sel : string -> bool)
    (cname : string -> string) (dimsf : string -> list string)
    (dat : table) (ds : Xr.Dataset) :
  promoting_reader ar sel cname dimsf dat = Ok ds ->
  Forall (from_column idx dat) (Xr.data_vars ds)
  /\ Dict.keys (Xr.data_vars ds)
     = List.filter (fun c => negb (sel c))
                   (Dict.keys (Dict.remove "APS_ID" (Dict.of_list dat))).
Proof.
  intros (cols & coords & cols' & coords' & Ecol & Efold & ->)%promoting_reader_ok.
  cbn [Xr.data_vars].
  destruct (columns_ok _ _ _ Ecol) as (_ & -> & Hnd & _).
  rewrite (promote_all ar sel cname _ _ _ _ Hnd Efold). split.
  - apply variables_from_columns. intros kv [Hin _]%List.filter_In. exact Hin.
  - rewrite (keys_variables (fun kv => variable_of (dimsf (fst kv)) (snd kv))).
    rewrite (keys_filter (fun c => negb (sel c))).
    now rewrite remove_map_values, keys_map_values.
Qed.

Lemma galaxy_body (dat : table) (ds : Xr.Dataset) :
  galaxy_table dat = Ok ds ->
  Forall (from_column true dat) (Xr.data_vars ds)
  /\ ((length (Dict.remove "APS_ID" (Dict.of_list dat)) <= 101)%nat ->
      Dict.keys (Xr.data_vars ds) = Dict.keys (Dict.remove "APS_ID" (Dict.of_list dat))).
Proof.
  intros (cols & coords & out & Ecol & Ef & ->)%galaxy_table_ok. cbn [Xr.data_vars].
  destruct (columns_ok _ _ _ Ecol) as (_ & -> & Hnd & _). split.
  - refine (galaxy_fold_from_columns dat _ [] out _ (Forall_nil_2 _) Ef).
    intros [i kv] Hin. cbn [snd]. now apply in_combine_r in Hin.
  - intros Hlen. rewrite remove_map_values in *.
    assert (Hl : length (Dict.map_values swap_order (Dict.remove "APS_ID" (Dict.of_list dat)))
                 = length (Dict.remove "APS_ID" (Dict.of_list dat)))
      by apply List.length_map.
    assert (H0 : (0 + length (Dict.map_values swap_order
                                (Dict.remove "APS_ID" (Dict.of_list dat))) <= 101)%nat)
      by (cbn [Nat.add]; lia).
    rewrite (galaxy_fold_keys _ 0%nat [] out H0 Hnd Ef).
    cbn [Dict.keys map app]. apply keys_map_values.
Qed.

End BodyFacts.

(** X9: every data variable of a dataset that one of the six read
    functions returns is made of a column, other than "APS_ID", of the
    table in the extension the function reads: it holds the byte-swapped
    column, whose elements mean what the column's elements mean, its only
    attribute is the column's unit (the text "None" without one), and its
    name is the column's. Only [read_galaxy_table] may put "IDX_" before
    the name, and only for a column that is not a line column. *)
Theorem readers_from_columns (ar : Np.arith)
    (Table_read : string -> string -> result table)
    (fn : string) (dat : table) (ds : Xr.Dataset) :
  (read_as Table_read "CLASS_TABLE" (read_class_table ar Table_read) fn dat ds
   \/ read_as Table_read "STAR_TABLE" (read_star_table Table_read) fn dat ds
   \/ read_as Table_read "CLASS_SPEC" (read_class_spec ar Table_read) fn dat ds
   \/ read_as Table_read "STAR_SPEC" (read_star_spec Table_read) fn dat ds
   \/ read_as Table_read "GALAXY_SPEC" (read_galaxy_spec Table_read) fn dat ds ->
   Forall (from_column false dat) (Xr.data_vars ds))
  /\ (read_as Table_read "GALAXY_TABLE" (read_galaxy_table Table_read) fn dat ds ->
      Forall (from_column true dat) (Xr.data_vars ds)).
Proof.
  unfold read_as, read_class_table, read_star_table, read_galaxy_table,
    read_class_spec, read_star_spec, read_galaxy_spec.
  split.
  - intros [[Et Hf]|[[Et Hf]|[[Et Hf]|[[Et Hf]|[Et Hf]]]]];
      rewrite Et in Hf; cbn [rbind] in Hf.
    + rewrite ReaderFacts.class_table_shape in Hf.
      exact (proj1 (BodyFacts.promoting_body false _ _ _ _ _ _ Hf)).
    + rewrite ReaderFacts.star_table_shape in Hf.
      exact (proj1 (BodyFacts.plain_body false _ _ _ _ Hf)).
    + rewrite ReaderFacts.class_spec_shape in Hf.
      exact (proj1 (BodyFacts.promoting_body false _ _ _ _ _ _ Hf)).
    + rewrite ReaderFacts.star_spec_shape in Hf.
      exact (proj1 (BodyFacts.plain_body false _ _ _ _ Hf)).
    + rewrite ReaderFacts.galaxy_spec_shape in Hf.
      exact (proj1 (BodyFacts.plain_body false _ _ _ _ Hf)).
  - intros [Et Hf]. rewrite Et in Hf. cbn [rbind] in Hf.
    exact (proj1 (BodyFacts.galaxy_body _ _ Hf)).
Qed.

Lemma readers_from_columns_witness :
  exists ds v,
    read_class_table Demo.arith DemoFiles.class_read "stack_1.fits" = Ok ds
    /\ Xr.data_vars ds = [("CZZ_CHI2_GALAXY", v)]
    /\ Xr.values v = arr (swap_order Demo.chi2)
    /\ Forall (from_column false Demo.class_rows) (Xr.data_vars ds).
Proof.
  destruct (read_class_table Demo.arith DemoFiles.class_read "stack_1.fits")
    as [ds|e] eqn:E; [|vm_compute in E; discriminate E].
  assert (H := proj1 (readers_from_columns Demo.arith DemoFiles.class_read
                        "stack_1.fits" Demo.class_rows ds)
                     (or_introl (conj eq_refl E))).
  vm_compute in E. injection E as <-.
  eexists _, _. split; [reflexivity|]. split; [reflexivity|].
  split; [reflexivity | exact H].
Defined.

(** X10: no column is lost or made up. The data variables of [star_table],
    [star_spec] and [galaxy_spec] are named as the columns of the table
    without "APS_ID", in the table's order; those of [class_table] and
    [class_spec] are the same without the promoted columns; and those of
    [galaxy_table] are the same when the table has at most 101 columns
    besides "APS_ID" (no column is then past the cutoff). *)
Theorem data_variable_names (ar : Np.arith) (dat : table) (ds : Xr.Dataset) :
  let names := Dict.keys (Dict.remove "APS_ID" (Dict.of_list dat)) in
  (star_table dat = Ok ds -> Dict.keys (Xr.data_vars ds) = names)
  /\ (star_spec dat = Ok ds -> Dict.keys (Xr.data_vars ds) = names)
  /\ (galaxy_spec dat = Ok ds -> Dict.keys (Xr.data_vars ds) = names)
  /\ (class_table ar dat = Ok ds ->
      Dict.keys (Xr.data_vars ds) = List.filter (fun c => negb (is_czz c)) names)
  /\ (class_spec ar dat = Ok ds ->
      Dict.keys (Xr.data_vars ds)
      = List.filter (fun c => negb (Str.startswith c "LAMBDA")) names)
  /\ (galaxy_table dat = Ok ds -> (length names <= 101)%nat ->
      Dict.keys (Xr.data_vars ds) = names).
Proof.
  intros names. repeat split.
  - rewrite ReaderFacts.star_table_shape. intros H.
    exact (proj2 (BodyFacts.plain_body false _ _ _ _ H)).
  - rewrite ReaderFacts.star_spec_shape. intros H.
    exact (proj2 (BodyFacts.plain_body false _ _ _ _ H)).
  - rewrite ReaderFacts.galaxy_spec_shape. intros H.
    exact (proj2 (BodyFacts.plain_body false _ _ _ _ H)).
  - rewrite ReaderFacts.class_table_shape. intros H.
    exact (proj2 (BodyFacts.promoting_body false _ _ _ _ _ _ H)).
  - rewrite ReaderFacts.class_spec_shape. intros H.
    exact (proj2 (BodyFacts.promoting_body false _ _ _ _ _ _ H)).
  - intros H Hlen. apply (proj2 (BodyFacts.galaxy_body _ _ H)).
    unfold names, Dict.keys in Hlen. now rewrite List.length_map in Hlen.
Qed.

Lemma data_variable_names_witness :
  exists ds,
    class_table Demo.arith Demo.class_rows = Ok ds
    /\ Dict.keys (Xr.data_vars ds) = ["CZZ_CHI2_GALAXY"].
Proof.
  destruct (class_table Demo.arith Demo.class_rows) as [ds|e] eqn:E;
    [|vm_compute in E; discriminate E].
  exists ds. split; [reflexivity|].
  exact (proj1 (proj2 (proj2 (proj2
           (data_variable_names Demo.arith Demo.class_rows ds)))) E).
Defined.

(** * More on paths *)
Module StorePathFacts.
Import StrFacts PathFacts.

Lemma startswith_split (c : ascii) (s : string) :
  Str.startswith s (String c "") = true -> exists s', s = String c s'.
Proof.
  destruct s as [|a s]; cbn; [discriminate|].
  rewrite andb_true_r. intros ->%Ascii.eqb_eq. eauto.
Qed.

Lemma endswith_split (c : ascii) (s : string) :
  Str.endswith s (String c "") = true -> exists s', s = s' +:+ String c "".
Proof.
  induction s as [|a s IH]; [discriminate|].
  rewrite endswith_cons. destruct s as [|b s].
  - intros ->%Ascii.eqb_eq. now exists "".
  - intros H. destruct (IH H) as [s' ->]. now exists (String a s').
Qed.

Lemma rfind_ge_app (c : ascii) (a b : string) :
  Str.len a <= Str.rfind c (a +:+ String c b).
Proof.
  rewrite rfind_app. cbn [Str.rfind]. rewrite Ascii.eqb_refl.
  pose proof (rfind_bounds c b).
  destruct (0 <=? Str.rfind c b) eqn:E.
  - replace (0 <=? Str.rfind c b + 1) with true by lia. lia.
  - cbn. lia.
Qed.

Lemma join_free (comps : list string) :
  forall path,
    (forall c, In c comps -> free Path.sep c) ->
    exists rest,
      Path.join path comps = path +:+ rest
      /\ (comps <> [] ->
          path = "" \/ Str.endswith path "/" = true \/ Str.startswith rest "/" = true).
Proof.
  unfold Path.join.
  induction comps as [|c comps IH]; intros path Hfree; cbn [fold_left].
  - exists "". split; [now rewrite app_nil_r | congruence].
  - destruct (IH (Path.join_step path c)) as (rest & -> & _);
      [intros c' Hc'; apply Hfree; now right|].
    unfold Path.join_step.
    assert (Hc : Str.startswith c "/" = false)
      by (apply free_startswith; apply Hfree; now left).
    rewrite Hc.
    destruct (String.eqb_spec path "") as [->|Hne]; cbn [orb].
    + exists (c +:+ rest). auto.
    + destruct (Str.endswith path "/") eqn:He.
      * exists (c +:+ rest). rewrite app_assoc. auto.
      * exists ("/" +:+ c +:+ rest). rewrite !app_assoc. auto.
Qed.

Lemma splitext_keeps_prefix (a b : string) :
  a = "" \/ Str.len a - 1 <= Str.rfind Path.sep (a +:+ b) ->
  exists mid, fst (Path.splitext (a +:+ b)) = a +:+ mid.
Proof.
  intros [->|Hsep]; [eexists; reflexivity|].
  unfold Path.splitext.
  destruct (Str.rfind Path.sep (a +:+ b) <? Str.rfind Path.extsep (a +:+ b)) eqn:E;
    [|eauto].
  destruct (Str.all_char _ _); [eauto|]. cbn [fst].
  replace (Str.rfind Path.extsep (a +:+ b))
    with (Str.len a + (Str.rfind Path.extsep (a +:+ b) - Str.len a)) by lia.
  rewrite slice_to_app by lia. eauto.
Qed.

Lemma last_n_In {A} (n : nat) (x : A) (l : list A) : In x (Str.last_n n l) -> In x l.
Proof.
  unfold Str.last_n. generalize (length l - n)%nat as k.
  intros k. revert l. induction k as [|k IH]; intros [|y l]; cbn; auto.
Qed.

Lemma split_not_nil (c : ascii) (s : string) : Str.split c s <> [].
Proof.
  destruct s as [|a s]; cbn [Str.split]; [discriminate|].
  destruct (Ascii.eqb a c); [discriminate|]. destruct (Str.split c s); discriminate.
Qed.

Lemma last_n_not_nil {A} (n : nat) (l : list A) :
  l <> [] -> (0 < n)%nat -> Str.last_n n l <> [].
Proof.
  intros Hl Hn H. unfold Str.last_n in H.
  apply (f_equal (@length A)) in H. rewrite length_drop in H. cbn in H.
  destruct l; [congruence|]. cbn [length] in H. lia.
Qed.

(** The file of the cache is named under the folder of the cache. *)
Lemma under_store (store name fn : string) :
  exists mid,
    Cache.fn_netcdf store name fn
    = store +:+ mid +:+ "_" +:+ Str.replace "read_" "" name +:+ ".nc".
Proof.
  unfold Cache.fn_netcdf.
  set (comps := Str.last_n 3 (Str.split Path.sep (Path.normpath fn))).
  destruct (join_free comps store) as (rest & Hjoin & Hcases).
  { intros c Hc. apply (split_free _ (Path.normpath fn)). now apply last_n_In in Hc. }
  rewrite Hjoin.
  destruct (splitext_keeps_prefix store rest) as [mid Hmid].
  - destruct Hcases as [H|[H|H]]; [| now left | |].
    + apply last_n_not_nil; [apply split_not_nil | lia].
    + right. apply endswith_split in H as [s' ->].
      rewrite app_assoc. pose proof (rfind_ge_app Path.sep s' rest) as Hge.
      change ("/" +:+ rest) with (String Path.sep rest).
      rewrite len_app. change (Str.len "/") with 1. lia.
    + right. apply startswith_split in H as [rest' ->].
      pose proof (rfind_ge_app Path.sep store rest'). unfold Path.sep in *. lia.
  - exists mid. rewrite Hmid. now rewrite app_assoc.
Qed.

(** The pattern of the low-resolution stacks. *)
Lemma lr_l2_stack_pattern (root date runid : string) :
  root <> "" -> Str.endswith root "/" = false ->
  weave_pattern root "L2" "stack" date runid
  = root +:+ "/L2/" +:+ date +:+ "/stack_*" +:+ runid +:+ "*.fits".
Proof.
  intros Hne He. unfold weave_pattern, Path.join. cbn [fold_left].
  unfold Path.join_step. rewrite He.
  apply String.eqb_neq in Hne. rewrite Hne. reflexivity.
Qed.

End StorePathFacts.

(** X12: the name of the cache file always starts with the folder of the
    cache as it is written, and ends with "_", the table name and ".nc",
    whatever the source path is (absolute, relative, with or without
    "." and ".." in it). *)
Theorem fn_netcdf_under_store (store name fn : string) :
  exists mid,
    Cache.fn_netcdf store name fn
    = store +:+ mid +:+ "_" +:+ Str.replace "read_" "" name +:+ ".nc".
Proof. apply StorePathFacts.under_store. Qed.

(** X13: the folder of the cache: a folder given to [ViaNetCDF] is taken
    as it is and the environment is not looked at; without one,
    "NETCDF_STORE" is taken when it is set and "HOME"/netcdf_store
    otherwise; but "HOME" is needed in both cases: when it is not set
    the construction ends in a [TypeError] even if "NETCDF_STORE" is
    set. *)
Theorem init_resolution (environ : gmap string string) :
  (forall s, init (Some s) environ = Store s)
  /\ (environ !! "HOME" = None -> init None environ = TypeError)
  /\ (forall home s,
        environ !! "HOME" = Some home -> environ !! "NETCDF_STORE" = Some s ->
        init None environ = Store s)
  /\ (forall home,
        environ !! "HOME" = Some home -> environ !! "NETCDF_STORE" = None ->
        home <> "" -> Str.endswith home "/" = false ->
        init None environ = Store (home +:+ "/netcdf_store")).
Proof.
  repeat split.
  - intros H. unfold init. now rewrite H.
  - intros home s Hh Hs. unfold init. now rewrite Hh, Hs.
  - intros home Hh Hs Hne He. unfold init. rewrite Hh, Hs. cbn [from_option].
    unfold Path.join. cbn [fold_left].
    now rewrite (PathFacts.join_step_plain home "netcdf_store" Hne He eq_refl).
Qed.

Lemma init_resolution_witness :
  init None DemoFiles.environ = Store "/home/user/netcdf_store"
  /\ init None {[ "NETCDF_STORE" := "/scratch/cache" ]} = TypeError.
Proof.
  split.
  - apply (proj2 (proj2 (proj2 (init_resolution DemoFiles.environ))) "/home/user");
      solve [reflexivity | discriminate].
  - apply (proj1 (proj2 (init_resolution {[ "NETCDF_STORE" := "/scratch/cache" ]}))).
    reflexivity.
Defined.

(** X14: with the default folder ("HOME" set to a folder name not ending
    in a separator, no "NETCDF_STORE", no folder given), the netCDF file of
    a source ending in the components [d1/d2/base] is
    [<HOME>/netcdf_store/<d1>/<d2>/<base without extension>_<table>.nc]. *)
Theorem default_cache_path (environ : gmap string string) (home name fn : string)
    (pre : list string) (d1 d2 base : string) :
  environ !! "HOME" = Some home -> environ !! "NETCDF_STORE" = None ->
  home <> "" -> Str.endswith home "/" = false ->
  Str.split Path.sep (Path.normpath fn) = pre ++ [d1; d2; base] ->
  d1 <> "" -> d2 <> "" ->
  exists store,
    init None environ = Store store
    /\ Cache.fn_netcdf store name fn
       = home +:+ "/netcdf_store/" +:+ d1 +:+ "/" +:+ d2 +:+ "/"
         +:+ fst (Path.splitext base) +:+ "_" +:+ Str.replace "read_" "" name +:+ ".nc".
Proof.
  intros Hh Hs Hne He Hsplit Hd1 Hd2. exists (home +:+ "/netcdf_store"). split.
  - unfold init. rewrite Hh, Hs. cbn [from_option]. unfold Path.join. cbn [fold_left].
    now rewrite (PathFacts.join_step_plain home "netcdf_store" Hne He eq_refl).
  - rewrite (CachePathFacts.fn_netcdf_three _ name fn pre d1 d2 base); auto.
    + change (home +:+ "/netcdf_store") with (home +:+ "/" +:+ "netcdf_store").
      now rewrite !StrFacts.app_assoc.
    + apply PathFacts.joined_not_empty.
    + apply (PathFacts.joined_endswith home "netcdf_store"); [discriminate | reflexivity].
Qed.

Lemma default_cache_path_witness :
  exists store,
    init None DemoFiles.environ = Store store
    /\ Cache.fn_netcdf store "read_class_spec" "/weave/L2/20230101/stack_1.fits"
       = "/home/user/netcdf_store/L2/20230101/stack_1_class_spec.nc".
Proof.
  apply (default_cache_path DemoFiles.environ "/home/user" "read_class_spec"
           "/weave/L2/20230101/stack_1.fits" [""; "weave"] "L2" "20230101" "stack_1.fits");
    solve [reflexivity | discriminate].
Defined.

(** X4: the files [get_lr_l2_stack_files] returns, for a root folder
    that is not empty and does not end in a separator: in ascending
    order, exactly the files matching
    [<root>/L2/<date>/stack_*<runid>*.fits] whose header says "LR". *)
Theorem get_lr_l2_stack_files_sound (glob : string -> list string)
    (getheader : string -> result (Dict.t string)) (environ : gmap string string)
    (root date runid : string) (files : list string) :
  environ !! "WEAVEIO_ROOTDIR" = Some root ->
  root <> "" -> Str.endswith root "/" = false ->
  get_lr_l2_stack_files glob getheader environ date runid = Ok files ->
  StronglySorted String.le files
  /\ forall fn,
       In fn files
       <-> In fn (glob (root +:+ "/L2/" +:+ date +:+ "/stack_*" +:+ runid +:+ "*.fits"))
           /\ _is_lowres getheader fn = Ok true.
Proof.
  intros Hroot Hne He H. unfold get_lr_l2_stack_files in H.
  destruct (DiscoveryFacts.found _ _ _ _ _ _ _ _ _ H) as (root' & Hroot' & Hs & Hin).
  rewrite Hroot in Hroot'. injection Hroot' as <-.
  rewrite (StorePathFacts.lr_l2_stack_pattern root date runid Hne He) in Hin.
  auto.
Qed.

Lemma get_lr_l2_stack_files_sound_witness :
  StronglySorted String.le
    ["/weave/L2/20230101/stack_1.fits"; "/weave/L2/20230102/stack_3.fits"]
  /\ forall fn,
       In fn ["/weave/L2/20230101/stack_1.fits"; "/weave/L2/20230102/stack_3.fits"]
       <-> In fn (DemoFiles.glob ("/weave" +:+ "/L2/" +:+ "*" +:+ "/stack_*" +:+ "*" +:+ "*.fits"))
           /\ _is_lowres DemoFiles.getheader fn = Ok true.
Proof.
  apply (get_lr_l2_stack_files_sound DemoFiles.glob DemoFiles.getheader
           DemoFiles.environ "/weave" "*" "*");
    solve [reflexivity | discriminate | vm_compute; reflexivity].
Defined.

(** X16: a column named with one of the line prefixes and an underscore
    is a line column whatever follows, also with "ERR_" before it; and
    [read_galaxy_table] keeps its name at every position. *)
Theorem line_columns_detected (n x : string) :
  In n ["EBMV"; "FLUX"; "AMPL"; "Z"; "SIGMA"; "AON"; "FWHM"] ->
  not_line_col (n +:+ "_" +:+ x) = false
  /\ not_line_col ("ERR_" +:+ n +:+ "_" +:+ x) = false
  /\ forall i, galaxy_table_name i (n +:+ "_" +:+ x) = n +:+ "_" +:+ x.
Proof.
  intros Hn. cbn [In] in Hn.
  assert (H : not_line_col (n +:+ "_" +:+ x) = false).
  { destruct Hn as [<-|[<-|[<-|[<-|[<-|[<-|[<-|[]]]]]]]]; reflexivity. }
  split; [exact H|]. split.
  - destruct Hn as [<-|[<-|[<-|[<-|[<-|[<-|[<-|[]]]]]]]]; reflexivity.
  - intros i. unfold galaxy_table_name. now rewrite H, andb_false_r.
Qed.

Lemma line_columns_detected_witness :
  not_line_col ("FLUX" +:+ "_" +:+ "HB_ERR_4861") = false.
Proof.
  apply (proj1 (line_columns_detected "FLUX" "HB_ERR_4861"
                  (or_intror (or_introl eq_refl)))).
Defined.

(** * What one call touches *)
Module TouchFacts.
Import Cache.



End TouchFacts.



(** X11: each of the six read functions needs the table of its own
    extension and the "APS_ID" column of that table: when the table has
    no "APS_ID" the function raises [KeyError] for that name, before
    anything else is looked at, and an error of [Table.read] on that
    extension is the error of the read function. *)
Theorem readers_need_APS_ID (ar : Np.arith)
    (Table_read : string -> string -> result table) (fn : string) :
  needs_APS_ID Table_read "CLASS_TABLE" (read_class_table ar Table_read) fn
  /\ needs_APS_ID Table_read "STAR_TABLE" (read_star_table Table_read) fn
  /\ needs_APS_ID Table_read "GALAXY_TABLE" (read_galaxy_table Table_read) fn
  /\ needs_APS_ID Table_read "CLASS_SPEC" (read_class_spec ar Table_read) fn
  /\ needs_APS_ID Table_read "STAR_SPEC" (read_star_spec Table_read) fn
  /\ needs_APS_ID Table_read "GALAXY_SPEC" (read_galaxy_spec Table_read) fn.
Proof.
  unfold needs_APS_ID, read_class_table, read_star_table, read_galaxy_table,
    read_class_spec, read_star_spec, read_galaxy_spec,
    class_table, star_table, galaxy_table, class_spec, star_spec, galaxy_spec.
  repeat split;
    try (intros dat -> Hg; cbn [rbind];
         now rewrite (ReaderFacts.columns_raise dat Hg));
    intros e ->; reflexivity.
Qed.

Lemma readers_need_APS_ID_witness :
  read_class_spec Demo.arith DemoFiles.no_key_read "stack_1.fits"
  = Raise (KeyError "APS_ID")
  /\ read_star_spec Demo.Table_read "/data/L2/missing.fits"
     = Raise (OSError "No such file or directory").
Proof.
  split.
  - exact (proj1 (proj1 (proj2 (proj2 (proj2
             (readers_need_APS_ID Demo.arith DemoFiles.no_key_read "stack_1.fits")))))
             [("FLUX_B", Demo.flux)] eq_refl eq_refl).
  - exact (proj2 (proj1 (proj2 (proj2 (proj2 (proj2
             (readers_need_APS_ID Demo.arith Demo.Table_read "/data/L2/missing.fits"))))))
             _ eq_refl).
Defined.

(** * The row axis *)
Module CoordFacts.
Import DictFacts PromoteFacts ReaderFacts.

Lemma columns_coords (dat : table) (cols : Dict.t Column) (coords : Dict.t Xr.coord) :
  columns dat = Ok (cols, coords) -> row_axis dat coords.
Proof.
  unfold columns, rbind, Dict.pop. rewrite get_map_values.
  destruct (Dict.get "APS_ID" (Dict.of_list dat)) as [aps|] eqn:Eg; [|discriminate].
  cbn [option_map fst snd]. intros [= _ <-]. exists aps. split; [exact Eg | reflexivity].
Qed.

Lemma plain_coords (coordsf : Dict.t Xr.coord -> Dict.t Xr.coord)
    (dimsf : string -> list string) (dat : table) (ds : Xr.Dataset) :
  (forall coords, Dict.get "APS_ID" (coordsf coords) = Dict.get "APS_ID" coords) ->
  plain_reader coordsf dimsf dat = Ok ds ->
  row_axis dat (Xr.coords ds).
Proof.
  intros Hc (cols & coords & Ecol & ->)%plain_reader_ok. cbn [Xr.coords].
  destruct (columns_coords _ _ _ Ecol) as (aps & Hg & Ha).
  exists aps. split; [exact Hg|]. now rewrite Hc.
Qed.

Lemma covar_coords_APS_ID (coords : Dict.t Xr.coord) :
  Dict.get "APS_ID" (covar_coords coords) = Dict.get "APS_ID" coords.
Proof. unfold covar_coords. now rewrite !get_set_ne by discriminate. Qed.

Lemma galaxy_table_coords (dat : table) (ds : Xr.Dataset) :
  galaxy_table dat = Ok ds -> row_axis dat (Xr.coords ds).
Proof.
  intros (cols & coords & out & Ecol & _ & ->)%galaxy_table_ok.
  exact (columns_coords _ _ _ Ecol).
Qed.

Lemma promoting_coords (ar : Np.arith) (sel : string -> bool) (cname : string -> string)
    (dimsf : string -> list string) (dat : table) (ds : Xr.Dataset) :
  (forall c, sel c = true -> cname c <> "APS_ID") ->
  promoting_reader ar sel cname dimsf dat = Ok ds ->
  row_axis dat (Xr.coords ds).
Proof.
  intros Hname (cols & coords & cols' & coords' & Ecol & Efold & ->)%promoting_reader_ok.
  cbn [Xr.coords].
  destruct (columns_coords _ _ _ Ecol) as (aps & Hg & Hc).
  destruct (columns_ok _ _ _ Ecol) as (_ & _ & Hnd & _).
  destruct (promote_ok ar sel cname _ _ _ _ _ Hnd Hnd Efold) as (_ & _ & _ & H4).
  exists aps. split; [exact Hg|]. rewrite H4; [exact Hc|].
  intros c _ Hs. now apply Hname.
Qed.

End CoordFacts.

(** X17: the dataset that one of the six read functions returns has the
    coordinate "APS_ID", and it holds the byte-swapped "APS_ID" column of
    the table in the extension the function reads; no promoted column and
    no other coordinate takes its place. *)
Theorem readers_APS_ID_coordinate (ar : Np.arith)
    (Table_read : string -> string -> result table)
    (fn : string) (dat : table) (ds : Xr.Dataset) :
  read_as Table_read "CLASS_TABLE" (read_class_table ar Table_read) fn dat ds
  \/ read_as Table_read "STAR_TABLE" (read_star_table Table_read) fn dat ds
  \/ read_as Table_read "GALAXY_TABLE" (read_galaxy_table Table_read) fn dat ds
  \/ read_as Table_read "CLASS_SPEC" (read_class_spec ar Table_read) fn dat ds
  \/ read_as Table_read "STAR_SPEC" (read_star_spec Table_read) fn dat ds
  \/ read_as Table_read "GALAXY_SPEC" (read_galaxy_spec Table_read) fn dat ds ->
  row_axis dat (Xr.coords ds).
Proof.
  unfold read_as, read_class_table, read_star_table, read_galaxy_table,
    read_class_spec, read_star_spec, read_galaxy_spec.
  intros [[Et Hf]|[[Et Hf]|[[Et Hf]|[[Et Hf]|[[Et Hf]|[Et Hf]]]]]];
    rewrite Et in Hf; cbn [rbind] in Hf.
  - rewrite ReaderFacts.class_table_shape in Hf.
    assert (Hn : forall c, is_czz c = true -> c <> "APS_ID")
      by (intros c Hs ->; discriminate Hs).
    exact (CoordFacts.promoting_coords ar is_czz (fun c => c) class_table_dims dat ds Hn Hf).
  - rewrite ReaderFacts.star_table_shape in Hf.
    exact (CoordFacts.plain_coords _ _ _ _ CoordFacts.covar_coords_APS_ID Hf).
  - now apply CoordFacts.galaxy_table_coords.
  - rewrite ReaderFacts.class_spec_shape in Hf.
    assert (Hn : forall c, Str.startswith c "LAMBDA" = true ->
                           "LAMBDA_" +:+ band_of c <> "APS_ID")
      by (intros c _; discriminate).
    exact (CoordFacts.promoting_coords ar _ _ class_spec_dims dat ds Hn Hf).
  - rewrite ReaderFacts.star_spec_shape in Hf.
    exact (CoordFacts.plain_coords _ _ _ _ (fun _ => eq_refl) Hf).
  - rewrite ReaderFacts.galaxy_spec_shape in Hf.
    exact (CoordFacts.plain_coords _ _ _ _ (fun _ => eq_refl) Hf).
Qed.

Lemma readers_APS_ID_coordinate_witness :
  exists ds,
    read_class_spec Demo.arith DemoFiles.spec_read "stack_1.fits" = Ok ds
    /\ Dict.keys (Xr.coords ds) = ["APS_ID"; "LAMBDA_B"]
    /\ Dict.get "APS_ID" (Xr.coords ds)
       = Some (Xr.CoordArray (arr (swap_order Demo.ids)))
    /\ row_axis Demo.spec_rows (Xr.coords ds).
Proof.
  destruct (read_class_spec Demo.arith DemoFiles.spec_read "stack_1.fits")
    as [ds|e] eqn:E; [|vm_compute in E; discriminate E].
  assert (H := readers_APS_ID_coordinate Demo.arith DemoFiles.spec_read
                 "stack_1.fits" Demo.spec_rows ds
                 (or_intror (or_intror (or_intror (or_introl (conj eq_refl E)))))).
  vm_compute in E. injection E as <-.
  eexists. split; [reflexivity|]. split; [reflexivity|].
  split; [reflexivity | exact H].
Defined.

(** X18: when one of the six read functions returns a dataset, every
    data variable has as many dimension names as its values have axes:
    [xr.Variable] lets nothing else through. A column with one axis more
    than its reader has names for makes the reader raise. *)
Theorem readers_match_axes (ar : Np.arith)
    (Table_read : string -> string -> result table)
    (name : string) (f : string -> result Xr.Dataset) (fn : string)
    (ds : Xr.Dataset) :
  In (name, f) (readers ar Table_read) ->
  f fn = Ok ds ->
  Forall axes_match (Xr.data_vars ds).
Proof.
  intros Hin Hf. unfold readers in Hin. cbn [In] in Hin.
  destruct Hin as [H|[H|[H|[H|[H|[H|[]]]]]]]; injection H as _ <-;
    unfold read_class_table, read_star_table, read_galaxy_table,
      read_class_spec, read_star_spec, read_galaxy_spec, rbind in Hf;
    (destruct (Table_read fn _) as [t|]; [|discriminate]).
  - rewrite ReaderFacts.class_table_shape in Hf.
    exact (ReaderFacts.promoting_reader_axes _ _ _ _ _ _ Hf).
  - rewrite ReaderFacts.star_table_shape in Hf.
    exact (ReaderFacts.plain_reader_axes _ _ _ _ Hf).
  - exact (ReaderFacts.galaxy_table_axes _ _ Hf).
  - rewrite ReaderFacts.class_spec_shape in Hf.
    exact (ReaderFacts.promoting_reader_axes _ _ _ _ _ _ Hf).
  - rewrite ReaderFacts.star_spec_shape in Hf.
    exact (ReaderFacts.plain_reader_axes _ _ _ _ Hf).
  - rewrite ReaderFacts.galaxy_spec_shape in Hf.
    exact (ReaderFacts.plain_reader_axes _ _ _ _ Hf).
Qed.

Lemma readers_match_axes_witness :
  (exists msg,
     read_galaxy_table Demo.Table_read "/data/L2/20230101/stack_1.fits"
     = Raise (ValueError msg))
  /\ exists ds v,
       read_star_spec Demo.Table_read "/data/L2/20230101/stack_1.fits" = Ok ds
       /\ Xr.data_vars ds = [("FLUX_B", v)]
       /\ length (Xr.dims v) = 2%nat
       /\ Np.ndim (Xr.values v) = 2%nat
       /\ Forall axes_match (Xr.data_vars ds).
Proof.
  split; [eexists; vm_compute; reflexivity|].
  do 2 eexists. split; [vm_compute; reflexivity|].
  split; [reflexivity|]. split; [reflexivity|]. split; [reflexivity|].
  apply (readers_match_axes Demo.arith Demo.Table_read
           "read_star_spec" (read_star_spec Demo.Table_read)
           "/data/L2/20230101/stack_1.fits").
  - unfold readers. cbn [In]. auto 10.
  - vm_compute. reflexivity.
Defined.
